(** * The secure settings store of Gemini Desktop (src/main.js)

    A shallow embedding of [secureStore] ([save], [load], [delete]) and of the
    facade built on it ([loadSettings], [saveSettings]), lines 10-113 of
    src/main.js, followed by the properties the specification states about
    them.  After the store come the code that uses the settings
    ([updateAutoLaunch] and the check boxes of the tray menu), the request
    and navigation filters of main.js, and [createIco] of
    src/generate-icons.js, each with properties of its own.

    What belongs to the platform and not to the repository is a parameter of
    the development: Electron's [safeStorage] and the JavaScript [JSON] object
    are records of functions, the file system is a finite map from paths to
    nodes that is threaded through every call together with the console. *)

From Stdlib Require Import Floats.SpecFloat Strings.Ascii.
From stdpp Require Import gmap strings pretty.

Local Open Scope string_scope.

(** ** JavaScript values of JSON shape *)

(** A JavaScript string is modelled by a [string], one character per code
    unit; a number is an IEEE 754 double, kept as the [spec_float] it
    denotes; an object is the finite map of its own enumerable properties. *)
#[warnings="-register-all"]
Inductive JsValue : Type :=
  | JNull
  | JBool (b : bool)
  | JNumber (x : spec_float)
  | JString (s : string)
  | JArray (items : list JsValue)
  | JObject (props : gmap string JsValue).

(** [ToBoolean]: what [if (loaded)] tests. *)
Definition toBoolean (v : JsValue) : bool :=
  match v with
  | JNull => false
  | JBool b => b
  | JNumber (S754_zero _) => false
  | JNumber S754_nan => false
  | JNumber _ => true
  | JString EmptyString => false
  | JString _ => true
  | JArray _ => true
  | JObject _ => true
  end.

Definition indexed {A} (f : A -> JsValue) (l : list A) : gmap string JsValue :=
  list_to_map (imap (fun i x => (pretty i, f x)) l).

(** The own enumerable properties that a spread [...v] copies: the properties
    of an object, the indices of an array or of a string, nothing for the
    other primitives. *)
Definition ownProperties (v : JsValue) : gmap string JsValue :=
  match v with
  | JObject props => props
  | JArray items => indexed id items
  | JString s => indexed (fun c => JString (String c EmptyString)) (String.list_ascii_of_string s)
  | JNull | JBool _ | JNumber _ => ∅
  end.

(** [{ ...a, ...b }]: the later source wins on a common key. *)
Definition spread2 (a b : JsValue) : JsValue :=
  JObject (ownProperties b ∪ ownProperties a).

(** ** Strings and paths *)

Fixpoint startsWith (pat s : string) : bool :=
  match pat, s with
  | EmptyString, _ => true
  | String _ _, EmptyString => false
  | String a pat', String b s' => if Ascii.eqb a b then startsWith pat' s' else false
  end.

Fixpoint dropChars (n : nat) (s : string) : string :=
  match n, s with
  | O, _ => s
  | S _, EmptyString => EmptyString
  | S n', String _ s' => dropChars n' s'
  end.

(** [s.replace(pat, rep)] with a string pattern: only the first occurrence
    is replaced. *)
Fixpoint replace (pat rep s : string) : string :=
  if startsWith pat s then rep +:+ dropChars (String.length pat) s
  else match s with
       | EmptyString => EmptyString
       | String c s' => String c (replace pat rep s')
       end.

(** [s.includes(pat)] *)
Fixpoint includes (pat s : string) : bool :=
  startsWith pat s ||
  match s with
  | EmptyString => false
  | String _ s' => includes pat s'
  end.

(** [path.join(dir, name)] for a normalised directory [dir] (what
    [app.getPath] returns) on a POSIX platform. *)
Definition path_join (dir name : string) : string := dir +:+ "/" +:+ name.

(** ** The world: file system and console *)

Inductive Node : Type :=
  | File (content : string)
  | Dir.

Inductive Level : Type := LogLevel | WarnLevel | ErrorLevel.

Record World : Type := mkWorld {
  files : gmap string Node;
  output : list (Level * string)
}.

(** A statement either completes normally or throws; the world it leaves
    behind is kept in both cases, so that a [catch] sees the writes made
    before the exception. *)
Inductive Completion (A : Type) : Type :=
  | Normal (a : A)
  | Thrown.
Arguments Normal {A} a.
Arguments Thrown {A}.

Definition IO (A : Type) : Type := World -> Completion A * World.

Definition io_ret {A} (a : A) : IO A := fun w => (Normal a, w).

Definition io_bind {A B} (m : IO A) (k : A -> IO B) : IO B :=
  fun w =>
    match m w with
    | (Normal a, w') => k a w'
    | (Thrown, w') => (Thrown, w')
    end.

Definition throw {A} : IO A := fun w => (Thrown, w).

(** [try { body } catch (error) { handler }] *)
Definition try_catch {A} (body handler : IO A) : IO A :=
  fun w =>
    match body w with
    | (Normal a, w') => (Normal a, w')
    | (Thrown, w') => handler w'
    end.

(** A platform call that returns or throws. *)
Definition orThrow {A} (r : option A) : IO A :=
  match r with
  | Some a => io_ret a
  | None => throw
  end.

#[global] Instance io_mret : MRet IO := @io_ret.
#[global] Instance io_mbind : MBind IO := fun A B k m => io_bind m k.

Module fs.

Definition existsSync (p : string) : IO bool :=
  fun w => (Normal (match files w !! p with Some _ => true | None => false end), w).

(** Reading fails on a missing path and on a directory. The bytes of a
    file and the text read from it with the ['utf8'] encoding are one and
    the same [string]. *)
Definition readFileSync (p : string) : IO string :=
  fun w =>
    match files w !! p with
    | Some (File content) => (Normal content, w)
    | Some Dir | None => (Thrown, w)
    end.

(** Writing creates or overwrites a file and fails on a directory. *)
Definition writeFileSync (p data : string) : IO unit :=
  fun w =>
    match files w !! p with
    | Some Dir => (Thrown, w)
    | Some (File _) | None =>
        (Normal tt, mkWorld (<[p := File data]> (files w)) (output w))
    end.

(** Unlinking fails on a missing path and on a directory. *)
Definition unlinkSync (p : string) : IO unit :=
  fun w =>
    match files w !! p with
    | Some (File _) => (Normal tt, mkWorld (delete p (files w)) (output w))
    | Some Dir | None => (Thrown, w)
    end.

End fs.

Module console.

Definition print (l : Level) (msg : string) : IO unit :=
  fun w => (Normal tt, mkWorld (files w) (output w ++ [(l, msg)])).

Definition log := print LogLevel.
Definition warn := print WarnLevel.
Definition error := print ErrorLevel.

End console.

(** ** The platform *)

Module safeStorage.

(** Electron's [safeStorage]: [encryptString] and [decryptString] throw
    when the keystore refuses ([None]). *)
Record t : Type := make {
  isEncryptionAvailable : bool;
  encryptString : string -> option string;
  decryptString : string -> option string
}.

End safeStorage.

Module JSON.

(** [JSON.stringify(data, null, 2)] and [JSON.parse(text)], which throws a
    [SyntaxError] on a malformed text ([None]). *)
Record t : Type := make {
  stringify : JsValue -> string;
  parse : string -> option JsValue
}.

End JSON.

(** What a working keystore and [JSON.parse] make of a node: the value
    that [load] returns for it at the current path. *)
Definition decoded (ss : safeStorage.t) (J : JSON.t) (n : Node) : option JsValue :=
  match n with
  | File blob => safeStorage.decryptString ss blob ≫= JSON.parse J
  | Dir => None
  end.

(** ** secureStore (src/main.js, lines 22-99) *)

Module secureStore.
Section with_platform.

Context (ss : safeStorage.t) (J : JSON.t).

Definition isAvailable : bool := safeStorage.isEncryptionAvailable ss.

Definition save (filePath : string) (data : JsValue) : IO bool :=
  try_catch
    (let jsonString := JSON.stringify J data in
     (if safeStorage.isEncryptionAvailable ss then
        encrypted ← orThrow (safeStorage.encryptString ss jsonString);
        fs.writeFileSync filePath encrypted;;
        console.log "Data saved with encryption"
      else
        console.warn "Encryption not available - saving unencrypted";;
        fs.writeFileSync (filePath +:+ ".json") jsonString);;
     mret true)
    (console.error "Error saving secure data:";;
     mret false).

(** The body of the [try] block of [load]: [Some v] when a [return v] was
    reached, [None] when control falls out of the block. *)
Definition load_try (filePath : string) : IO (option JsValue) :=
  inCurrent ← fs.existsSync filePath;
  fromCurrent ←
    (if inCurrent : bool then
       encrypted ← fs.readFileSync filePath;
       if safeStorage.isEncryptionAvailable ss then
         decrypted ← orThrow (safeStorage.decryptString ss encrypted);
         parsed ← orThrow (JSON.parse J decrypted);
         mret (Some parsed)
       else mret None
     else mret None);
  match fromCurrent with
  | Some parsed => mret (Some parsed)
  | None =>
      let legacyPath := replace ".enc" ".json" filePath in
      inLegacy ← fs.existsSync legacyPath;
      if inLegacy : bool then
        data ← fs.readFileSync legacyPath;
        parsed ← orThrow (JSON.parse J data);
        (if safeStorage.isEncryptionAvailable ss then
           save filePath parsed;;
           fs.unlinkSync legacyPath;;
           console.log "Migrated settings to encrypted storage"
         else mret tt);;
        mret (Some parsed)
      else mret None
  end.

Definition load (filePath : string) (defaultValue : JsValue) : IO JsValue :=
  r ← try_catch (load_try filePath)
                (console.error "Error loading secure data:";; mret None);
  mret (match r with
        | Some parsed => parsed
        | None => defaultValue
        end).

Definition delete (filePath : string) : IO bool :=
  try_catch
    (inCurrent ← fs.existsSync filePath;
     (if inCurrent : bool then fs.unlinkSync filePath else mret tt);;
     let legacyPath := replace ".enc" ".json" filePath in
     inLegacy ← fs.existsSync legacyPath;
     (if inLegacy : bool then fs.unlinkSync legacyPath else mret tt);;
     mret true)
    (console.error "Error deleting secure data:";;
     mret false).

End with_platform.
End secureStore.

(** ** The settings facade (src/main.js, lines 10-19 and 101-113) *)

Section Settings.

Context (ss : safeStorage.t) (J : JSON.t).

(** [app.getPath('userData')] *)
Context (userData : string).

Definition settingsPath : string := path_join userData "settings.enc".
Definition legacySettingsPath : string := path_join userData "settings.json".

(** [loadSettings] runs once, at start-up, before any menu action assigns
    to a field of [settings]: the object [defaultSettings] then still is the
    literal of line 15. *)
Definition defaultSettings : JsValue :=
  JObject (<["startMinimized" := JBool false]>
          (<["minimizeToTray" := JBool true]>
          (<["startAtLogin" := JBool false]> ∅))).

Definition loadSettings : IO JsValue :=
  loaded ← secureStore.load ss J settingsPath JNull;
  if toBoolean loaded then mret (spread2 defaultSettings loaded)
  else mret defaultSettings.

Definition saveSettings (settings : JsValue) : IO bool :=
  secureStore.save ss J settingsPath settings.

End Settings.

(** ** The process and the application state *)

(** What the code reads from its process: [process.platform],
    [process.argv], [app.getPath('exe')], [app.getPath('home')] and
    [__dirname]. *)
Record Process : Type := mkProcess {
  platform : string;
  argv : list string;
  exePath : string;
  homePath : string;
  dirname : string
}.

(** The argument of [app.setLoginItemSettings]; [openAtLogin] is whatever
    [settings.startAtLogin] holds, [None] for [undefined]. *)
Record LoginItemSettings : Type := mkLoginItemSettings {
  openAtLogin : option JsValue;
  path : string;
  args : list string
}.

(** The mutable state of main.js that the settings code touches: the world,
    the own properties of the object that the global [settings] refers to,
    and the calls made to [app.setLoginItemSettings], oldest first. *)
Record App : Type := mkApp {
  world : World;
  settings : gmap string JsValue;
  loginItems : list LoginItemSettings
}.

Definition AppIO (A : Type) : Type := App -> Completion A * App.

#[global] Instance appio_mret : MRet AppIO := fun A a s => (Normal a, s).

#[global] Instance appio_mbind : MBind AppIO := fun A B k m s =>
  match m s with
  | (Normal a, s') => k a s'
  | (Thrown, s') => (Thrown, s')
  end.

(** A statement that only acts on the world. *)
Definition liftIO {A} (m : IO A) : AppIO A :=
  fun s =>
    match m (world s) with
    | (r, w') => (r, mkApp w' (settings s) (loginItems s))
    end.

(** [settings.key] *)
Definition getSetting (key : string) : AppIO (option JsValue) :=
  fun s => (Normal (settings s !! key), s).

(** [settings.key = value] *)
Definition setSetting (key : string) (value : JsValue) : AppIO unit :=
  fun s => (Normal tt, mkApp (world s) (<[key := value]> (settings s)) (loginItems s)).

(** The global [settings] itself, as passed to [saveSettings]. *)
Definition theSettings : AppIO JsValue :=
  fun s => (Normal (JObject (settings s)), s).

Definition app_setLoginItemSettings (l : LoginItemSettings) : AppIO unit :=
  fun s => (Normal tt, mkApp (world s) (settings s) (loginItems s ++ [l])).

(** The truth value of a property that may be [undefined]. *)
Definition truthy (v : option JsValue) : bool :=
  match v with
  | Some v => toBoolean v
  | None => false
  end.

(** [fs.mkdirSync(p, { recursive: true })]: nothing to do on a directory,
    an error on a file.  The world does not record which directory holds
    which path, so that creating the ancestors leaves no trace in it. *)
Definition mkdirSync_recursive (p : string) : IO unit :=
  fun w =>
    match files w !! p with
    | Some (File _) => (Thrown, w)
    | Some Dir => (Normal tt, w)
    | None => (Normal tt, mkWorld (<[p := Dir]> (files w)) (output w))
    end.

(** ** updateAutoLaunch and the tray check boxes (src/main.js, lines 250-278
    and 293-343) *)

Section AutoLaunch.

Context (ss : safeStorage.t) (J : JSON.t) (userData : string) (P : Process).

Definition newline : string := String (Ascii.ascii_of_nat 10) "".
Definition doubleQuote : string := String (Ascii.ascii_of_nat 34) "".

Definition autostartDir : string :=
  path_join (path_join (homePath P) ".config") "autostart".

Definition desktopFile : string := path_join autostartDir "gemini-desktop.desktop".

(** The template literal of lines 312-322. *)
Definition desktopContent (startMinimized : option JsValue) : string :=
  "[Desktop Entry]" +:+ newline +:+
  "Type=Application" +:+ newline +:+
  "Name=Gemini Desktop" +:+ newline +:+
  "Exec=" +:+ doubleQuote +:+ exePath P +:+ doubleQuote +:+
    (if truthy startMinimized then " --hidden" else "") +:+ newline +:+
  "Icon=" +:+ path_join (path_join (dirname P) "assets") "icon.png" +:+ newline +:+
  "Comment=Standalone desktop app for Google Gemini" +:+ newline +:+
  "Categories=Network;Chat;Utility;" +:+ newline +:+
  "Terminal=false" +:+ newline +:+
  "StartupWMClass=Gemini Desktop" +:+ newline +:+
  "X-GNOME-Autostart-enabled=true" +:+ newline.

Definition updateAutoLaunch : AppIO unit :=
  startAtLogin ← getSetting "startAtLogin";
  startMinimized ← getSetting "startMinimized";
  let loginSettings :=
    mkLoginItemSettings startAtLogin (exePath P)
      (if truthy startMinimized then ["--hidden"] else []) in
  (if String.eqb (platform P) "linux" && truthy startAtLogin then
     liftIO
       (try_catch
          (dirExists ← fs.existsSync autostartDir;
           (if negb dirExists then mkdirSync_recursive autostartDir else mret tt);;
           fs.writeFileSync desktopFile (desktopContent startMinimized);;
           console.log "Created autostart entry for Linux")
          (console.error "Failed to create Linux autostart entry:"))
   else if String.eqb (platform P) "linux" && negb (truthy startAtLogin) then
     liftIO
       (try_catch
          (fileExists ← fs.existsSync desktopFile;
           if fileExists : bool then
             fs.unlinkSync desktopFile;;
             console.log "Removed autostart entry for Linux"
           else mret tt)
          (console.error "Failed to remove Linux autostart entry:"))
   else mret tt);;
  app_setLoginItemSettings loginSettings.

(** The [click] handlers of the three check boxes of the tray menu;
    [checked] is [menuItem.checked]. *)
Definition clickStartAtLogin (checked : bool) : AppIO unit :=
  setSetting "startAtLogin" (JBool checked);;
  current ← theSettings;
  liftIO (saveSettings ss J userData current);;
  updateAutoLaunch.

Definition clickStartMinimized (checked : bool) : AppIO unit :=
  setSetting "startMinimized" (JBool checked);;
  current ← theSettings;
  liftIO (saveSettings ss J userData current);;
  mret tt.

Definition clickMinimizeToTray (checked : bool) : AppIO unit :=
  setSetting "minimizeToTray" (JBool checked);;
  current ← theSettings;
  liftIO (saveSettings ss J userData current);;
  mret tt.

End AutoLaunch.

(** ** Request filtering and navigation (src/main.js, lines 146-165, 523-544
    and 601-635)

    A handler that parses its URL works on [new URL(url).hostname], which is
    an argument here. *)

(** [s.endsWith(suffix)] *)
Definition endsWith (suffix s : string) : bool :=
  let start := String.length s - String.length suffix in
  if Nat.ltb (String.length s) (String.length suffix) then false
  else String.eqb (dropChars start s) suffix.

Definition allowedDomains : list string :=
  [ "google.com";
    "googleapis.com";
    "gstatic.com";
    "googleusercontent.com";
    "google-analytics.com";
    "doubleclick.net";
    "youtube.com";
    "ytimg.com";
    "ggpht.com" ].

(** The listener of [onBeforeRequest]: the value of [cancel] in its answer. *)
Definition onBeforeRequest (hostname : string) : bool :=
  let isAllowed :=
    existsb (fun domain =>
               String.eqb hostname domain || endsWith ("." +:+ domain) hostname)
            allowedDomains in
  negb isAllowed.

(** The listener of ['certificate-error']: whether it called
    [event.preventDefault()], and what it passed to [callback]. *)
Definition onCertificateError (hostname : string) : bool * bool :=
  if endsWith "google.com" hostname ||
     endsWith "googleapis.com" hostname ||
     endsWith "gstatic.com" hostname
  then (true, true)
  else (false, false).

Inductive WindowOpenAction : Type := allow | deny.

(** The handler that [createWindow] installs with [setWindowOpenHandler]:
    its answer and the URLs it passed to [shell.openExternal]. *)
Definition windowOpenHandler (url : string) : WindowOpenAction * list string :=
  if includes "accounts.google.com" url ||
     includes "gemini.google.com" url ||
     includes "google.com/accounts" url
  then (allow, [])
  else (deny, [url]).

(** The ['will-navigate'] listener of [createWindow]: whether it called
    [event.preventDefault()], and the URLs passed to [shell.openExternal]. *)
Definition windowWillNavigate (url : string) : bool * list string :=
  if negb (includes "gemini.google.com" url) &&
     negb (includes "accounts.google.com" url) &&
     negb (includes "google.com/accounts" url)
  then (true, [url])
  else (false, []).

(** The ['will-navigate'] listener that ['web-contents-created'] adds to
    every web contents: whether it called [event.preventDefault()]. *)
Definition contentsWillNavigate (hostname : string) : bool :=
  let allowedHosts := ["gemini.google.com"; "accounts.google.com"] in
  if negb (existsb (fun host => includes host hostname) allowedHosts)
  then true else false.

(** A navigation of the main window: its web contents carries both
    ['will-navigate'] listeners, the one of ['web-contents-created'] and the
    one of [createWindow]; each runs, and the navigation is cancelled as
    soon as one of them called [preventDefault]. *)
Definition mainWindowWillNavigate (url hostname : string) : bool * list string :=
  let prevented1 := contentsWillNavigate hostname in
  let '(prevented2, opened) := windowWillNavigate url in
  (prevented1 || prevented2, opened).

(** ** createIco (src/generate-icons.js, lines 11-47)

    A [Buffer] is the list of its bytes.  The methods used are those of
    Node: a write outside the buffer or of a value outside the range of the
    field throws a [RangeError], as does a read outside the buffer. *)

Definition byteValue (b : Byte.byte) : Z := Z.of_N (Byte.to_N b).

(** The byte that holds the eight low bits of [v]. *)
Definition byteOf (v : Z) : Byte.byte :=
  default Byte.x00 (Byte.of_N (Z.to_N (v mod 256))).

Module Buffer.

Definition alloc (size : nat) : list Byte.byte := replicate size Byte.x00.

(** Overwrites [bytes] at [offset], inside the buffer. *)
Definition fill (offset : nat) (bytes buf : list Byte.byte) : option (list Byte.byte) :=
  if Nat.leb (offset + length bytes) (length buf)
  then Some (take offset buf ++ bytes ++ drop (offset + length bytes) buf)%list
  else None.

Definition writeUInt8 (value : Z) (offset : nat) (buf : list Byte.byte)
  : option (list Byte.byte) :=
  if ((0 <=? value) && (value <? 256))%Z then fill offset [byteOf value] buf
  else None.

Definition writeUInt16LE (value : Z) (offset : nat) (buf : list Byte.byte)
  : option (list Byte.byte) :=
  if ((0 <=? value) && (value <? 65536))%Z
  then fill offset [byteOf value; byteOf (value / 256)] buf
  else None.

Definition writeUInt32LE (value : Z) (offset : nat) (buf : list Byte.byte)
  : option (list Byte.byte) :=
  if ((0 <=? value) && (value <? 4294967296))%Z
  then fill offset [byteOf value; byteOf (value / 256);
                    byteOf (value / 65536); byteOf (value / 16777216)] buf
  else None.

Definition readUInt32BE (offset : nat) (buf : list Byte.byte) : option Z :=
  match drop offset buf with
  | b0 :: b1 :: b2 :: b3 :: _ =>
      Some (byteValue b0 * 16777216 + byteValue b1 * 65536 +
            byteValue b2 * 256 + byteValue b3)%Z
  | _ => None
  end.

Definition readUInt32LE (offset : nat) (buf : list Byte.byte) : option Z :=
  match drop offset buf with
  | b0 :: b1 :: b2 :: b3 :: _ =>
      Some (byteValue b0 + byteValue b1 * 256 +
            byteValue b2 * 65536 + byteValue b3 * 16777216)%Z
  | _ => None
  end.

Definition readUInt16LE (offset : nat) (buf : list Byte.byte) : option Z :=
  match drop offset buf with
  | b0 :: b1 :: _ => Some (byteValue b0 + byteValue b1 * 256)%Z
  | _ => None
  end.

Definition concat (buffers : list (list Byte.byte)) : list Byte.byte :=
  List.concat buffers.

End Buffer.

(** [for (const x of l) body], threading the variables that the body
    assigns; a throw in the body ends the loop. *)
Fixpoint forOf {S A} (body : S -> A -> option S) (l : list A) (st : S) : option S :=
  match l with
  | [] => Some st
  | x :: l' => st' ← body st x; forOf body l' st'
  end.

(** The variables of the loop of [createIco]. *)
Record IcoLoop : Type := mkIcoLoop {
  dataOffset : Z;
  dirEntries : list (list Byte.byte);
  imageData : list (list Byte.byte)
}.

Definition createIco_body (st : IcoLoop) (png : list Byte.byte) : option IcoLoop :=
  width ← Buffer.readUInt32BE 16 png;
  height ← Buffer.readUInt32BE 20 png;
  entry ← Some (Buffer.alloc 16);
  entry ← Buffer.writeUInt8 (if (256 <=? width)%Z then 0 else width) 0 entry;
  entry ← Buffer.writeUInt8 (if (256 <=? height)%Z then 0 else height) 1 entry;
  entry ← Buffer.writeUInt8 0 2 entry;
  entry ← Buffer.writeUInt8 0 3 entry;
  entry ← Buffer.writeUInt16LE 1 4 entry;
  entry ← Buffer.writeUInt16LE 32 6 entry;
  entry ← Buffer.writeUInt32LE (Z.of_nat (length png)) 8 entry;
  entry ← Buffer.writeUInt32LE (dataOffset st) 12 entry;
  Some (mkIcoLoop (dataOffset st + Z.of_nat (length png))
                  (dirEntries st ++ [entry])%list
                  (imageData st ++ [png])%list).

(** [None] when the function throws. *)
Definition createIco (pngBuffers : list (list Byte.byte)) : option (list Byte.byte) :=
  header ← Some (Buffer.alloc 6);
  header ← Buffer.writeUInt16LE 0 0 header;
  header ← Buffer.writeUInt16LE 1 2 header;
  header ← Buffer.writeUInt16LE (Z.of_nat (length pngBuffers)) 4 header;
  let dirEntrySize := 16%Z in
  let dataOffset := (6 + Z.of_nat (length pngBuffers) * dirEntrySize)%Z in
  st ← forOf createIco_body pngBuffers (mkIcoLoop dataOffset [] []);
  Some (Buffer.concat ([header] ++ dirEntries st ++ imageData st)%list).

(** What a directory entry of an ICO file says, read the way a decoder
    reads it: sixteen bytes, the width and height bytes, no palette, one
    colour plane, 32 bits per pixel, the size of the image and the offset of
    its first byte in the file. *)
Definition describes (entry png : list Byte.byte) (offset : Z) : Prop :=
  length entry = 16 /\
  (exists width height,
     Buffer.readUInt32BE 16 png = Some width /\
     Buffer.readUInt32BE 20 png = Some height /\
     take 4 entry = [byteOf (if (256 <=? width)%Z then 0 else width);
                     byteOf (if (256 <=? height)%Z then 0 else height);
                     Byte.x00; Byte.x00]) /\
  Buffer.readUInt16LE 4 entry = Some 1%Z /\
  Buffer.readUInt16LE 6 entry = Some 32%Z /\
  Buffer.readUInt32LE 8 entry = Some (Z.of_nat (length png)) /\
  Buffer.readUInt32LE 12 entry = Some offset.


(** ** A platform for examples

    A compact JSON codec for flat values (literals, strings without escapes,
    objects of those) and a reversible toy cipher.  They instantiate the
    platform parameters where a statement is exercised on a concrete world;
    no general result depends on them. *)

Module example.

Definition dq : Ascii.ascii := Ascii.ascii_of_nat 34.

Definition quoted (s : string) : string := String dq (s +:+ String dq "").

Definition atom (v : JsValue) : string :=
  match v with
  | JBool true => "true"
  | JBool false => "false"
  | JNumber (S754_zero _) => "0"
  | JString s => quoted s
  | JArray _ => "[]"
  | JObject _ => "{}"
  | JNull | JNumber _ => "null"
  end.

Definition member (kv : string * JsValue) : string :=
  quoted kv.1 +:+ ":" +:+ atom kv.2.

Definition stringify (v : JsValue) : string :=
  match v with
  | JObject props => "{" +:+ String.concat "," (member <$> map_to_list props) +:+ "}"
  | _ => atom v
  end.

Fixpoint untilQuote (s : string) : option (string * string) :=
  match s with
  | EmptyString => None
  | String c s' =>
      if Ascii.eqb c dq then Some (EmptyString, s')
      else '(body, rest) ← untilQuote s'; Some (String c body, rest)
  end.

Definition parseAtom (s : string) : option (JsValue * string) :=
  if startsWith "null" s then Some (JNull, dropChars 4 s)
  else if startsWith "true" s then Some (JBool true, dropChars 4 s)
  else if startsWith "false" s then Some (JBool false, dropChars 5 s)
  else if startsWith "0" s then Some (JNumber (S754_zero false), dropChars 1 s)
  else if startsWith "[]" s then Some (JArray [], dropChars 2 s)
  else if startsWith "{}" s then Some (JObject ∅, dropChars 2 s)
  else match s with
       | String c s' =>
           if Ascii.eqb c dq then '(body, rest) ← untilQuote s'; Some (JString body, rest)
           else None
       | EmptyString => None
       end.

Fixpoint parseMembers (fuel : nat) (s : string) : option (gmap string JsValue) :=
  match fuel, s with
  | S fuel', String c s' =>
      if Ascii.eqb c dq then
        '(key, rest) ← untilQuote s';
        match rest with
        | String ":"%char rest' =>
            '(v, rest'') ← parseAtom rest';
            match rest'' with
            | String "}"%char EmptyString => Some {[ key := v ]}
            | String ","%char more => m ← parseMembers fuel' more; Some (<[key := v]> m)
            | _ => None
            end
        | _ => None
        end
      else None
  | _, _ => None
  end.

Definition parse (s : string) : option JsValue :=
  match s with
  | String "{"%char (String "}"%char EmptyString) => Some (JObject ∅)
  | String "{"%char s' => JObject <$> parseMembers (String.length s') s'
  | _ =>
      match parseAtom s with
      | Some (v, EmptyString) => Some v
      | _ => None
      end
  end.

Definition json : JSON.t := JSON.make stringify parse.

Definition encrypt (s : string) : option string := Some ("v10" +:+ String.rev s).

Definition decrypt (b : string) : option string :=
  if startsWith "v10" b then Some (String.rev (dropChars 3 b)) else None.

(** The keystore works. *)
Definition keyring : safeStorage.t := safeStorage.make true encrypt decrypt.

(** No keystore: the probe reports that encryption is unavailable. *)
Definition noKeyring : safeStorage.t :=
  safeStorage.make false (fun _ => None) (fun _ => None).

(** The probe reports a keystore, and the keystore refuses to encrypt. *)
Definition lockedKeyring : safeStorage.t :=
  safeStorage.make true (fun _ => None) decrypt.

Definition userData : string := "/home/deck/.config/gemini-desktop".

Definition current : string := "/home/deck/.config/gemini-desktop/settings.enc".
Definition legacy : string := "/home/deck/.config/gemini-desktop/settings.json".
Definition fallback : string := "/home/deck/.config/gemini-desktop/settings.enc.json".

Definition startMinimizedOnly : JsValue := JObject {[ "startMinimized" := JBool true ]}.

Definition withTheme : JsValue :=
  JObject (<["startMinimized" := JBool true]> {[ "theme" := JString "dark" ]}).

Definition emptyWorld : World := mkWorld ∅ [].

Definition onDisk (l : list (string * Node)) : World := mkWorld (list_to_map l) [].

End example.

(** A Linux desktop for examples. *)
Module steamDeck.

Definition process : Process :=
  mkProcess "linux" ["/opt/gemini/gemini-desktop"] "/opt/gemini/gemini-desktop"
            "/home/deck" "/opt/gemini/resources/app".

Definition autostart : string := "/home/deck/.config/autostart".

Definition entry : string := "/home/deck/.config/autostart/gemini-desktop.desktop".

(** The settings of a first run, with start at login switched on or off. *)
Definition settingsWith (startAtLogin : bool) : gmap string JsValue :=
  <["startAtLogin" := JBool startAtLogin]> (ownProperties defaultSettings).

Definition running (startAtLogin : bool) (w : World) : App :=
  mkApp w (settingsWith startAtLogin) [].

End steamDeck.

(** Two buffers that start like PNG files as far as [createIco] looks: a
    signature and chunk header of sixteen bytes, the width and the height of
    the image, and some data. *)
Module icons.

Definition png (width height : list Byte.byte) (data : list Byte.byte) : list Byte.byte :=
  (replicate 16 Byte.x89 ++ width ++ height ++ data)%list.

Definition png16 : list Byte.byte :=
  png [Byte.x00; Byte.x00; Byte.x00; Byte.x10] [Byte.x00; Byte.x00; Byte.x00; Byte.x10]
      [Byte.xaa; Byte.xbb].

Definition png256 : list Byte.byte :=
  png [Byte.x00; Byte.x00; Byte.x01; Byte.x00] [Byte.x00; Byte.x00; Byte.x01; Byte.x00]
      [Byte.xcc].

End icons.

(** ** Proof support *)

(** Unfolds the store and the monad down to matches on file lookups. *)
Ltac io_unfold :=
  unfold secureStore.load, secureStore.load_try, secureStore.delete,
    secureStore.save, try_catch, orThrow, throw,
    mbind, mret, io_mbind, io_mret, io_bind, io_ret,
    fs.existsSync, fs.readFileSync, fs.writeFileSync, fs.unlinkSync,
    console.log, console.warn, console.error, console.print.

(** Runs the code as far as the equations in the context determine it. *)
Ltac io_run :=
  io_unfold;
  repeat (simpl; match goal with H : ?l = _ |- context [?l] => rewrite H end);
  simpl.

(** * Properties *)

Example replace_first_only : replace ".enc" ".json" "a.enc.enc" = "a.json.enc".
Proof. reflexivity. Qed.

Example replace_absent : replace ".enc" ".json" "settings" = "settings".
Proof. reflexivity. Qed.

Example example_paths :
  settingsPath example.userData = example.current /\
  legacySettingsPath example.userData = example.legacy /\
  replace ".enc" ".json" example.current = example.legacy /\
  example.current +:+ ".json" = example.fallback.
Proof. repeat split. Qed.

Example example_codec :
  example.parse (example.stringify example.withTheme) = Some example.withTheme /\
  example.decrypt (default "" (example.encrypt "{}")) = Some "{}".
Proof. split; vm_compute; reflexivity. Qed.

(** ** Paths *)

Lemma length_app (a b : string) :
  String.length (a +:+ b) = String.length a + String.length b.
Proof. induction a as [|c a IH]; simpl; [reflexivity|]. by rewrite IH. Qed.

Lemma string_app_assoc (a b c : string) :
  (a +:+ b) +:+ c = a +:+ (b +:+ c).
Proof.
  induction a as [|x a IH]; [reflexivity|]. exact (f_equal (String x) IH).
Qed.

Lemma length_dropChars_startsWith pat s :
  startsWith pat s = true ->
  String.length (dropChars (String.length pat) s) + String.length pat = String.length s.
Proof.
  revert s. induction pat as [|a pat IH]; intros [|b s]; simpl; try done; try lia.
  destruct (Ascii.eqb a b); [|done]. intros H. specialize (IH _ H). lia.
Qed.

Lemma length_replace pat rep s :
  String.length pat <= String.length rep ->
  String.length (replace pat rep s) + String.length pat
    <= String.length s + String.length rep.
Proof.
  intros Hle. induction s as [|c s IH].
  - simpl. destruct (startsWith pat "") eqn:E.
    + apply length_dropChars_startsWith in E.
      rewrite length_app. simpl in *. lia.
    + simpl. lia.
  - cbn [replace]. destruct (startsWith pat (String c s)) eqn:E.
    + apply length_dropChars_startsWith in E.
      rewrite length_app. lia.
    + simpl in *. lia.
Qed.

(** The file that [save] writes without a keystore is neither the file that
    [load] decrypts nor the legacy file that it reads. *)
Lemma fallback_ne_current filePath : filePath +:+ ".json" <> filePath.
Proof.
  intros H. apply (f_equal String.length) in H.
  rewrite length_app in H. simpl in H. lia.
Qed.

Lemma fallback_ne_legacy filePath :
  filePath +:+ ".json" <> replace ".enc" ".json" filePath.
Proof.
  intros H. apply (f_equal String.length) in H.
  rewrite length_app in H.
  pose proof (length_replace ".enc" ".json" filePath) as Hl.
  simpl in *. lia.
Qed.

Lemma startsWith_enc_settings u :
  startsWith ".enc" (u +:+ "/settings.enc") = startsWith ".enc" u.
Proof.
  destruct u as [|a [|b [|c [|d u]]]]; simpl; try reflexivity;
    repeat (match goal with |- context [Ascii.eqb ?x ?y] => destruct (Ascii.eqb x y) end;
            try reflexivity).
Qed.

Lemma replace_unfold pat rep s :
  replace pat rep s =
  if startsWith pat s then rep +:+ dropChars (String.length pat) s
  else match s with
       | EmptyString => EmptyString
       | String c s' => String c (replace pat rep s')
       end.
Proof. by destruct s. Qed.

Lemma replace_settingsPath userData :
  includes ".enc" userData = false ->
  replace ".enc" ".json" (settingsPath userData) = legacySettingsPath userData.
Proof.
  unfold settingsPath, legacySettingsPath, path_join.
  change ("/" +:+ "settings.enc") with "/settings.enc".
  change ("/" +:+ "settings.json") with "/settings.json".
  induction userData as [|c u IH]; [reflexivity|].
  cbn [includes]. intros [Hs Hi]%orb_false_elim.
  rewrite replace_unfold, startsWith_enc_settings, Hs.
  simpl. by rewrite (IH Hi).
Qed.

Lemma settingsPath_ne_legacy userData :
  settingsPath userData <> legacySettingsPath userData.
Proof.
  unfold settingsPath, legacySettingsPath, path_join.
  induction userData as [|c u IH]; simpl; [discriminate|].
  intros [= H]. exact (IH H).
Qed.

(** ** Running the store *)

Section store_facts.

Context (ss : safeStorage.t) (J : JSON.t).

Local Abbreviation save := (secureStore.save ss J).
Local Abbreviation load := (secureStore.load ss J).
Local Abbreviation available := (safeStorage.isEncryptionAvailable ss).
Local Abbreviation legacyOf filePath := (replace ".enc" ".json" filePath).

Lemma save_unavailable filePath data w :
  available = false ->
  files w !! (filePath +:+ ".json") <> Some Dir ->
  save filePath data w =
    (Normal true,
     mkWorld (<[filePath +:+ ".json" := File (JSON.stringify J data)]> (files w))
             (output w ++ [(WarnLevel, "Encryption not available - saving unencrypted")])).
Proof.
  intros Hav Hdir. io_unfold. rewrite Hav. simpl.
  destruct (files w !! (filePath +:+ ".json")) as [[c|]|] eqn:E; done.
Qed.

Lemma save_encrypted filePath data blob w :
  available = true ->
  safeStorage.encryptString ss (JSON.stringify J data) = Some blob ->
  files w !! filePath <> Some Dir ->
  save filePath data w =
    (Normal true,
     mkWorld (<[filePath := File blob]> (files w))
             (output w ++ [(LogLevel, "Data saved with encryption")])).
Proof.
  intros Hav Henc Hdir. io_unfold. rewrite Hav, Henc. simpl.
  destruct (files w !! filePath) as [[c|]|] eqn:E; done.
Qed.

Lemma save_encrypt_throws filePath data w :
  available = true ->
  safeStorage.encryptString ss (JSON.stringify J data) = None ->
  save filePath data w =
    (Normal false,
     mkWorld (files w) (output w ++ [(ErrorLevel, "Error saving secure data:")])).
Proof.
  intros Hav Henc. io_unfold. by rewrite Hav, Henc.
Qed.

(** [save] catches whatever is thrown. *)
Lemma save_returns filePath data w :
  exists ok w', save filePath data w = (Normal ok, w').
Proof.
  io_unfold. destruct available.
  - destruct (safeStorage.encryptString ss _); simpl; [|eauto].
    destruct (files w !! filePath) as [[c|]|]; simpl; eauto.
  - simpl. destruct (files w !! (filePath +:+ ".json")) as [[c|]|]; simpl; eauto.
Qed.

Lemma load_current filePath defaultValue node v w :
  available = true ->
  files w !! filePath = Some node ->
  decoded ss J node = Some v ->
  load filePath defaultValue w = (Normal v, w).
Proof.
  intros Hav Hf Hd. destruct node as [blob|]; [|done]. simpl in Hd.
  destruct (safeStorage.decryptString ss blob) as [s|] eqn:E; [|done].
  simpl in Hd. by io_run.
Qed.

Lemma load_current_undecodable filePath defaultValue node w :
  available = true ->
  files w !! filePath = Some node ->
  decoded ss J node = None ->
  load filePath defaultValue w =
    (Normal defaultValue,
     mkWorld (files w) (output w ++ [(ErrorLevel, "Error loading secure data:")])).
Proof.
  intros Hav Hf Hd. destruct node as [blob|]; [|by io_run]. simpl in Hd.
  destruct (safeStorage.decryptString ss blob) as [s|] eqn:E; [|by io_run].
  simpl in Hd. by io_run.
Qed.

Lemma load_first_run filePath defaultValue w :
  files w !! filePath = None ->
  files w !! legacyOf filePath = None ->
  load filePath defaultValue w = (Normal defaultValue, w).
Proof. intros Hf Hl. by io_run. Qed.

(** Without a keystore a file at the current path is read and then left
    aside: the legacy file decides. *)
Lemma load_legacy_no_keystore filePath defaultValue data v w :
  available = false ->
  files w !! filePath <> Some Dir ->
  files w !! legacyOf filePath = Some (File data) ->
  JSON.parse J data = Some v ->
  load filePath defaultValue w = (Normal v, w).
Proof.
  intros Hav Hf Hl Hp.
  destruct (files w !! filePath) as [[c|]|] eqn:E; [| done |]; by io_run.
Qed.

Lemma load_no_keystore_no_legacy filePath defaultValue w :
  available = false ->
  files w !! filePath <> Some Dir ->
  files w !! legacyOf filePath = None ->
  load filePath defaultValue w = (Normal defaultValue, w).
Proof.
  intros Hav Hf Hl.
  destruct (files w !! filePath) as [[c|]|] eqn:E; [| done |]; by io_run.
Qed.

(** Without a keystore [load] reads only. *)
Lemma load_no_keystore_frame filePath defaultValue w :
  available = false ->
  exists r log, load filePath defaultValue w = (Normal r, mkWorld (files w) log).
Proof.
  intros Hav. destruct w as [fs0 log0].
  destruct (fs0 !! filePath) as [[c|]|] eqn:E; [| io_run; eauto |];
    (destruct (fs0 !! legacyOf filePath) as [[data|]|] eqn:El; [| io_run; eauto ..];
     destruct (JSON.parse J data) eqn:Ep; io_run; eauto).
Qed.

Lemma load_migrates filePath defaultValue data v blob w :
  available = true ->
  files w !! filePath = None ->
  files w !! legacyOf filePath = Some (File data) ->
  JSON.parse J data = Some v ->
  safeStorage.encryptString ss (JSON.stringify J v) = Some blob ->
  load filePath defaultValue w =
    (Normal v,
     mkWorld (delete (legacyOf filePath) (<[filePath := File blob]> (files w)))
             (output w ++ [(LogLevel, "Data saved with encryption")]
                        ++ [(LogLevel, "Migrated settings to encrypted storage")])).
Proof.
  intros Hav Hf Hl Hp He.
  assert (Hne : filePath <> legacyOf filePath) by congruence.
  io_run. rewrite lookup_insert_ne by done. io_run.
  by rewrite <- app_assoc.
Qed.

(** When [encryptString] throws during migration, [save] reports [false],
    nobody looks at it, and the legacy file is unlinked all the same. *)
Lemma load_migration_without_copy filePath defaultValue data v w :
  available = true ->
  files w !! filePath = None ->
  files w !! legacyOf filePath = Some (File data) ->
  JSON.parse J data = Some v ->
  safeStorage.encryptString ss (JSON.stringify J v) = None ->
  load filePath defaultValue w =
    (Normal v,
     mkWorld (delete (legacyOf filePath) (files w))
             (output w ++ [(ErrorLevel, "Error saving secure data:")]
                        ++ [(LogLevel, "Migrated settings to encrypted storage")])).
Proof.
  intros Hav Hf Hl Hp He. io_run. by rewrite <- app_assoc.
Qed.

(** [load] catches whatever is thrown. *)
Lemma load_returns filePath defaultValue w :
  exists r w', load filePath defaultValue w = (Normal r, w').
Proof.
  unfold secureStore.load, try_catch, mbind, io_mbind, io_bind, mret, io_mret, io_ret.
  destruct (secureStore.load_try ss J filePath w) as [[r|] w']; simpl; eauto.
Qed.

(** A value other than the default comes from a file: with a keystore, the
    current path is then a file or free, never a directory. *)
Lemma load_value_current_writable filePath defaultValue r w w' :
  available = true ->
  load filePath defaultValue w = (Normal r, w') ->
  r <> defaultValue ->
  files w' !! filePath <> Some Dir.
Proof.
  intros Hav Hload Hr. destruct w as [fs0 log0].
  destruct (fs0 !! filePath) as [[blob|]|] eqn:Ef.
  - destruct (decoded ss J (File blob)) as [v|] eqn:Ed.
    + rewrite (load_current filePath defaultValue (File blob) v) in Hload by done.
      injection Hload as <- <-. simpl. by rewrite Ef.
    + rewrite (load_current_undecodable filePath defaultValue (File blob)) in Hload by done.
      by injection Hload as <- <-.
  - rewrite (load_current_undecodable filePath defaultValue Dir) in Hload by done.
    by injection Hload as <- <-.
  - destruct (fs0 !! legacyOf filePath) as [[data|]|] eqn:El.
    + destruct (JSON.parse J data) as [v|] eqn:Ep.
      * destruct (safeStorage.encryptString ss (JSON.stringify J v)) as [blob|] eqn:Ee.
        -- rewrite (load_migrates filePath defaultValue data v blob) in Hload by done.
           injection Hload as <- <-. simpl.
           rewrite lookup_delete_ne by congruence. by rewrite lookup_insert_eq.
        -- rewrite (load_migration_without_copy filePath defaultValue data v) in Hload by done.
           injection Hload as <- <-. simpl.
           rewrite lookup_delete_ne by congruence. by rewrite Ef.
      * revert Hload. io_run. by intros [= <- <-].
    + revert Hload. io_run. by intros [= <- <-].
    + rewrite load_first_run in Hload by done. by injection Hload as <- <-.
Qed.

(** [delete] without directories in the way: both paths are unlinked. *)
Lemma delete_files filePath w :
  files w !! filePath <> Some Dir ->
  files w !! legacyOf filePath <> Some Dir ->
  secureStore.delete filePath w =
    (Normal true,
     mkWorld (delete (legacyOf filePath) (delete filePath (files w))) (output w)).
Proof.
  intros Hf Hl. destruct w as [fs0 log0]. simpl in *.
  destruct (fs0 !! filePath) as [[c|]|] eqn:Ef; [| done |].
  - io_run. destruct (decide (filePath = legacyOf filePath)) as [<-|Hne].
    + rewrite lookup_delete_eq. simpl.
      by rewrite (delete_id (delete filePath fs0)) by apply lookup_delete_eq.
    + rewrite lookup_delete_ne by done.
      destruct (fs0 !! legacyOf filePath) as [[c'|]|] eqn:El; [| done |]; io_run.
      * rewrite lookup_delete_ne by done. by io_run.
      * by rewrite (delete_id (delete filePath fs0))
          by (by rewrite lookup_delete_ne).
  - rewrite (delete_id fs0 filePath) by done.
    destruct (fs0 !! legacyOf filePath) as [[c'|]|] eqn:El; [| done |]; io_run.
    + done.
    + by rewrite delete_id.
Qed.

Lemma delete_nothing filePath w :
  files w !! filePath = None ->
  files w !! legacyOf filePath = None ->
  secureStore.delete filePath w = (Normal true, w).
Proof. intros Hf Hl. destruct w. simpl in *. by io_run. Qed.

(** [delete] touches no other path, whatever it runs into. *)
Lemma delete_frame filePath p w :
  p <> filePath ->
  p <> legacyOf filePath ->
  exists ok w',
    secureStore.delete filePath w = (Normal ok, w') /\
    files w' !! p = files w !! p.
Proof.
  intros H1 H2. destruct w as [fs0 log0].
  destruct (fs0 !! filePath) as [[c|]|] eqn:Ef; io_run; eauto.
  - destruct (delete filePath fs0 !! legacyOf filePath) as [[c'|]|] eqn:El;
      io_run; do 2 eexists; (split; [reflexivity|]); simpl;
      by rewrite ?lookup_delete_ne.
  - destruct (fs0 !! legacyOf filePath) as [[c'|]|] eqn:El;
      io_run; do 2 eexists; (split; [reflexivity|]); simpl;
      by rewrite ?lookup_delete_ne.
Qed.

End store_facts.

(** ** The facade *)

Lemma toBoolean_false_iff v :
  toBoolean v = false <->
  v = JNull \/ v = JBool false \/ (exists sign, v = JNumber (S754_zero sign)) \/
  v = JNumber S754_nan \/ v = JString "".
Proof.
  split.
  - destruct v as [|[]|[]|[]| |]; simpl; intros; try discriminate; eauto 10.
  - intros [->|[->|[[sign ->]|[->| ->]]]]; reflexivity.
Qed.

(** Spreading a falsy value adds nothing: the literal [{ ...defaultSettings,
    ...loaded }] and [defaultSettings] then have the same properties. *)
Lemma spread2_falsy v :
  toBoolean v = false -> spread2 defaultSettings v = defaultSettings.
Proof.
  intros Hv. unfold spread2, defaultSettings. f_equal.
  assert (ownProperties v = ∅) as ->.
  { destruct v as [|[]|[]|[]| |]; simpl in *; try discriminate; reflexivity. }
  by rewrite (left_id_L ∅ (∪)).
Qed.

Lemma loadSettings_of_load ss J userData loaded w w' :
  secureStore.load ss J (settingsPath userData) JNull w = (Normal loaded, w') ->
  loadSettings ss J userData w = (Normal (spread2 defaultSettings loaded), w').
Proof.
  intros Hl. unfold loadSettings, mbind, io_mbind, io_bind. rewrite Hl.
  destruct (toBoolean loaded) eqn:E; [reflexivity|].
  by rewrite spread2_falsy.
Qed.

(** ** The claims of the specification *)

(** C1 (fails on the code). The specification has the fallback [save] write
    the plain text to the legacy path settings.json, from which a later
    [load] reads it back.  The code writes it to [settingsPath + '.json'],
    that is settings.enc.json, a path that [load] never opens: whatever value
    is saved without a keystore, settings.json stays absent and the next
    [loadSettings] returns the bare defaults. *)
Theorem fallback_save_is_never_loaded ss J userData v w :
  safeStorage.isEncryptionAvailable ss = false ->
  includes ".enc" userData = false ->
  files w !! settingsPath userData = None ->
  files w !! legacySettingsPath userData = None ->
  files w !! (settingsPath userData +:+ ".json") <> Some Dir ->
  exists w1,
    saveSettings ss J userData v w = (Normal true, w1) /\
    files w1 = <[settingsPath userData +:+ ".json" := File (JSON.stringify J v)]> (files w) /\
    files w1 !! legacySettingsPath userData = None /\
    loadSettings ss J userData w1 = (Normal defaultSettings, w1).
Proof.
  intros Hav Hinc Hcur Hleg Hdir.
  pose proof (replace_settingsPath _ Hinc) as Hrep.
  pose proof (fallback_ne_legacy (settingsPath userData)) as Hne1.
  pose proof (fallback_ne_current (settingsPath userData)) as Hne2.
  rewrite Hrep in Hne1.
  set (w1 := mkWorld
    (<[settingsPath userData +:+ ".json" := File (JSON.stringify J v)]> (files w))
    (output w ++ [(WarnLevel, "Encryption not available - saving unencrypted")])).
  assert (Hleg' : files w1 !! legacySettingsPath userData = None)
    by (simpl; by rewrite lookup_insert_ne).
  exists w1. split; [by apply save_unavailable|].
  split; [reflexivity|]. split; [exact Hleg'|].
  rewrite (loadSettings_of_load ss J userData JNull w1 w1).
  - by rewrite spread2_falsy.
  - apply load_no_keystore_no_legacy; [done| |by rewrite Hrep].
    simpl. rewrite lookup_insert_ne by done. by rewrite Hcur.
Qed.

Lemma fallback_save_is_never_loaded_witness :
  loadSettings example.noKeyring example.json example.userData
    (mkWorld {[ example.fallback := File (example.stringify example.startMinimizedOnly) ]}
             [(WarnLevel, "Encryption not available - saving unencrypted")])
  = (Normal defaultSettings,
     mkWorld {[ example.fallback := File (example.stringify example.startMinimizedOnly) ]}
             [(WarnLevel, "Encryption not available - saving unencrypted")])
  /\ spread2 defaultSettings example.startMinimizedOnly <> defaultSettings.
Proof.
  split.
  - destruct (fallback_save_is_never_loaded example.noKeyring example.json
                example.userData example.startMinimizedOnly example.emptyWorld
                eq_refl eq_refl eq_refl eq_refl ltac:(vm_compute; discriminate))
      as (w1 & Hsave & _ & _ & Hload).
    vm_compute in Hsave. injection Hsave as <-. exact Hload.
  - vm_compute. discriminate.
Defined.

(** C2 (fails on the code). The specification lets the migration delete the
    legacy file only once the encrypted copy is written.  [load] calls
    [secureStore.save] and drops the boolean it returns, then unlinks the
    legacy file: in every run of the migration in which [save] fails (it
    returns [false], here because [encryptString] throws), nothing is written
    to the current path and the legacy file, the only copy, is removed
    nevertheless. *)
Theorem migration_unlinks_legacy_after_failed_save ss J filePath defaultValue data v w w1 :
  safeStorage.isEncryptionAvailable ss = true ->
  files w !! filePath = None ->
  files w !! replace ".enc" ".json" filePath = Some (File data) ->
  JSON.parse J data = Some v ->
  secureStore.save ss J filePath v w = (Normal false, w1) ->
  files w1 = files w /\
  exists w2,
    secureStore.load ss J filePath defaultValue w = (Normal v, w2) /\
    files w2 = delete (replace ".enc" ".json" filePath) (files w) /\
    files w2 !! replace ".enc" ".json" filePath = None /\
    files w2 !! filePath = None.
Proof.
  intros Hav Hcur Hleg Hparse Hsave.
  destruct (safeStorage.encryptString ss (JSON.stringify J v)) as [blob|] eqn:Henc.
  { rewrite (save_encrypted ss J filePath v blob) in Hsave; [discriminate|done..|].
    rewrite Hcur. discriminate. }
  rewrite save_encrypt_throws in Hsave by done. injection Hsave as <-.
  split; [reflexivity|].
  eexists. split; [by eapply load_migration_without_copy|]. simpl.
  split; [reflexivity|]. split; [apply lookup_delete_eq|].
  rewrite lookup_delete_ne by congruence. exact Hcur.
Qed.

Lemma migration_unlinks_legacy_after_failed_save_witness :
  let w := example.onDisk
             [(example.legacy, File (example.stringify example.startMinimizedOnly))] in
  exists w2,
    secureStore.load example.lockedKeyring example.json example.current JNull w
      = (Normal example.startMinimizedOnly, w2) /\
    files w2 = ∅.
Proof.
  destruct (migration_unlinks_legacy_after_failed_save example.lockedKeyring
              example.json example.current JNull
              (example.stringify example.startMinimizedOnly)
              example.startMinimizedOnly
              (example.onDisk
                 [(example.legacy, File (example.stringify example.startMinimizedOnly))])
              (mkWorld
                 (list_to_map
                    [(example.legacy, File (example.stringify example.startMinimizedOnly))])
                 [(ErrorLevel, "Error saving secure data:")])
              eq_refl eq_refl eq_refl eq_refl eq_refl)
    as (_ & w2 & Hload & Hfiles & _).
  exists w2. split; [exact Hload|]. rewrite Hfiles. reflexivity.
Defined.

(** C3, counterexample. With the keystore down, a file at the current path
    does not stop [load]: it goes on to the legacy file and returns what
    that file holds, not the default. *)
Lemma keystore_down_falls_through_to_legacy :
  ~ (forall ss J filePath defaultValue w,
       is_Some (files w !! filePath) ->
       safeStorage.isEncryptionAvailable ss = false ->
       (secureStore.load ss J filePath defaultValue w).1 = Normal defaultValue).
Proof.
  intros H.
  specialize (H example.noKeyring example.json example.current JNull
                (example.onDisk
                   [(example.current,
                     File (default "" (example.encrypt (example.stringify defaultSettings))));
                    (example.legacy, File (example.stringify example.startMinimizedOnly))])).
  vm_compute in H. specialize (H (ex_intro _ _ eq_refl) eq_refl). discriminate H.
Qed.

(** C3, as the code has it. A file at the current path that cannot be
    decoded while the keystore is available (unreadable, refused by
    [decryptString], or not JSON) makes [load] return the default, without
    raising and without touching or consulting the legacy file.  With the
    keystore unavailable, a file at the current path is read and then left
    aside: [load] returns the value of the legacy file when there is one, the
    default when there is none.  In no case does [load] raise. *)
Theorem decrypt_failure_returns_default ss J filePath defaultValue node w :
  files w !! filePath = Some node ->
  (safeStorage.isEncryptionAvailable ss = true ->
   decoded ss J node = None ->
   secureStore.load ss J filePath defaultValue w =
     (Normal defaultValue,
      mkWorld (files w) (output w ++ [(ErrorLevel, "Error loading secure data:")]))) /\
  (safeStorage.isEncryptionAvailable ss = false ->
   node <> Dir ->
   (forall data v,
      files w !! replace ".enc" ".json" filePath = Some (File data) ->
      JSON.parse J data = Some v ->
      secureStore.load ss J filePath defaultValue w = (Normal v, w)) /\
   (files w !! replace ".enc" ".json" filePath = None ->
    secureStore.load ss J filePath defaultValue w = (Normal defaultValue, w))) /\
  (exists r w', secureStore.load ss J filePath defaultValue w = (Normal r, w')).
Proof.
  intros Hnode. split; [|split].
  - intros Hav Hdec. by eapply load_current_undecodable.
  - intros Hav Hdir.
    assert (files w !! filePath <> Some Dir) by (rewrite Hnode; congruence).
    split.
    + intros data v Hleg Hparse. by eapply load_legacy_no_keystore.
    + intros Hleg. by apply load_no_keystore_no_legacy.
  - apply load_returns.
Qed.

Lemma decrypt_failure_returns_default_witness :
  let w := example.onDisk
             [(example.current, File "random bytes");
              (example.legacy, File (example.stringify example.startMinimizedOnly))] in
  secureStore.load example.keyring example.json example.current JNull w =
    (Normal JNull,
     mkWorld (files w) [(ErrorLevel, "Error loading secure data:")]).
Proof.
  exact (proj1 (decrypt_failure_returns_default example.keyring example.json
                  example.current JNull (File "random bytes")
                  (example.onDisk
                     [(example.current, File "random bytes");
                      (example.legacy,
                       File (example.stringify example.startMinimizedOnly))])
                  eq_refl)
               eq_refl eq_refl).
Defined.

(** C4 (fails on the code). The specification has a migration leave no
    plain-text file behind.  [loadSettings] does migrate a legacy object
    [props] held by settings.json: it returns the object whose properties
    are those of [props], completed by the defaults on the keys it lacks;
    afterwards settings.json is gone, settings.enc holds a blob that decodes
    to [props], and a second [loadSettings] returns the same settings and
    changes nothing.  But the plain-text file of the fallback [save],
    settings.enc.json, is not a path that [load] knows: whatever it holds
    is still on disk, in plain text, after the migration. *)
Theorem migration_keeps_fallback_plaintext ss J userData data props blob w :
  includes ".enc" userData = false ->
  safeStorage.isEncryptionAvailable ss = true ->
  files w !! settingsPath userData = None ->
  files w !! legacySettingsPath userData = Some (File data) ->
  JSON.parse J data = Some (JObject props) ->
  safeStorage.encryptString ss (JSON.stringify J (JObject props)) = Some blob ->
  safeStorage.decryptString ss blob = Some (JSON.stringify J (JObject props)) ->
  JSON.parse J (JSON.stringify J (JObject props)) = Some (JObject props) ->
  exists merged w1,
    loadSettings ss J userData w = (Normal (JObject merged), w1) /\
    (forall k x, props !! k = Some x -> merged !! k = Some x) /\
    (forall k, props !! k = None -> merged !! k = ownProperties defaultSettings !! k) /\
    files w1 !! legacySettingsPath userData = None /\
    files w1 !! settingsPath userData = Some (File blob) /\
    decoded ss J (File blob) = Some (JObject props) /\
    files w1 !! (settingsPath userData +:+ ".json")
      = files w !! (settingsPath userData +:+ ".json") /\
    (forall p, p <> settingsPath userData -> p <> legacySettingsPath userData ->
               files w1 !! p = files w !! p) /\
    loadSettings ss J userData w1 = (Normal (JObject merged), w1).
Proof.
  intros Hinc Hav Hcur Hleg Hparse Henc Hdec Hround.
  pose proof (replace_settingsPath _ Hinc) as Hrep.
  pose proof (settingsPath_ne_legacy userData) as Hne.
  pose proof (fallback_ne_current (settingsPath userData)) as Hfb1.
  pose proof (fallback_ne_legacy (settingsPath userData)) as Hfb2.
  rewrite Hrep in Hfb2. rewrite <- Hrep in Hleg.
  pose proof (load_migrates ss J _ JNull _ _ _ _ Hav Hcur Hleg Hparse Henc) as Hload.
  rewrite Hrep in Hload.
  assert (Hblob : decoded ss J (File blob) = Some (JObject props))
    by (simpl; by rewrite Hdec).
  exists (props ∪ ownProperties defaultSettings). eexists.
  split; [exact (loadSettings_of_load _ _ _ _ _ _ Hload)|]. simpl.
  assert (Hnew : delete (legacySettingsPath userData)
                   (<[settingsPath userData := File blob]> (files w))
                 !! settingsPath userData = Some (File blob)).
  { rewrite lookup_delete_ne by done. apply lookup_insert_eq. }
  split; [intros k x Hk; by apply lookup_union_Some_l|].
  split; [intros k Hk; by apply lookup_union_r|].
  split; [apply lookup_delete_eq|]. split; [exact Hnew|]. split; [exact Hblob|].
  split; [rewrite lookup_delete_ne by done; by rewrite lookup_insert_ne|].
  split.
  - intros p Hp1 Hp2. rewrite lookup_delete_ne by done. by rewrite lookup_insert_ne.
  - apply (loadSettings_of_load ss J userData (JObject props)).
    by eapply load_current.
Qed.

Lemma migration_keeps_fallback_plaintext_witness :
  let w := example.onDisk
             [(example.legacy, File (example.stringify example.withTheme));
              (example.fallback, File (example.stringify example.startMinimizedOnly))] in
  exists merged w1,
    loadSettings example.keyring example.json example.userData w =
      (Normal (JObject merged), w1) /\
    merged !! "theme" = Some (JString "dark") /\
    merged !! "startMinimized" = Some (JBool true) /\
    merged !! "minimizeToTray" = Some (JBool true) /\
    files w1 !! example.legacy = None /\
    files w1 !! example.fallback
      = Some (File (example.stringify example.startMinimizedOnly)).
Proof.
  destruct (migration_keeps_fallback_plaintext example.keyring example.json
              example.userData
              (example.stringify example.withTheme)
              (<["startMinimized" := JBool true]> {[ "theme" := JString "dark" ]})
              (default "" (example.encrypt (example.stringify example.withTheme)))
              (example.onDisk
                 [(example.legacy, File (example.stringify example.withTheme));
                  (example.fallback,
                   File (example.stringify example.startMinimizedOnly))])
              ltac:(vm_compute; reflexivity) ltac:(vm_compute; reflexivity)
              ltac:(vm_compute; reflexivity) ltac:(vm_compute; reflexivity)
              ltac:(vm_compute; reflexivity) ltac:(vm_compute; reflexivity)
              ltac:(vm_compute; reflexivity) ltac:(vm_compute; reflexivity))
    as (merged & w1 & Hload & Hwins & Hfill & Hgone & _ & _ & Hplain & _).
  exists merged, w1. split; [exact Hload|].
  split; [apply Hwins; vm_compute; reflexivity|].
  split; [apply Hwins; vm_compute; reflexivity|].
  split; [rewrite Hfill by (vm_compute; reflexivity); vm_compute; reflexivity|].
  split; [exact Hgone|]. refine (eq_trans Hplain _). vm_compute. reflexivity.
Defined.

(** C5. No migration without a keystore.  With nothing at the current path
    and encryption unavailable, [load] leaves the file system exactly as it
    found it, whatever the legacy file holds, and returns the value of the
    legacy file when its content parses. *)
Theorem no_migration_without_keystore ss J filePath defaultValue w :
  safeStorage.isEncryptionAvailable ss = false ->
  files w !! filePath = None ->
  exists r w1,
    secureStore.load ss J filePath defaultValue w = (Normal r, w1) /\
    files w1 = files w /\
    (forall data v,
       files w !! replace ".enc" ".json" filePath = Some (File data) ->
       JSON.parse J data = Some v ->
       r = v /\ w1 = w /\
       files w1 !! replace ".enc" ".json" filePath = Some (File data) /\
       files w1 !! filePath = None).
Proof.
  intros Hav Hcur.
  destruct (load_no_keystore_frame ss J filePath defaultValue w Hav) as (r & log & Hload).
  exists r, (mkWorld (files w) log). split; [exact Hload|]. split; [reflexivity|].
  intros data v Hleg Hparse.
  assert (Hcur' : files w !! filePath <> Some Dir) by (rewrite Hcur; discriminate).
  pose proof (load_legacy_no_keystore ss J filePath defaultValue data v w
                Hav Hcur' Hleg Hparse) as Hload'.
  rewrite Hload in Hload'. injection Hload' as -> ->. auto.
Qed.

Lemma no_migration_without_keystore_witness :
  let w := example.onDisk [(example.legacy, File (example.stringify example.withTheme))] in
  secureStore.load example.noKeyring example.json example.current JNull w =
    (Normal example.withTheme, w).
Proof.
  destruct (no_migration_without_keystore example.noKeyring example.json
              example.current JNull
              (example.onDisk
                 [(example.legacy, File (example.stringify example.withTheme))])
              eq_refl eq_refl)
    as (r & w1 & Hload & _ & Hlegacy).
  destruct (Hlegacy (example.stringify example.withTheme) example.withTheme
              eq_refl eq_refl) as (-> & -> & _).
  exact Hload.
Defined.

(** C6. First run.  With neither settings.enc nor settings.json on disk,
    [loadSettings] returns exactly the default settings and leaves the
    world (files and console) as it was. *)
Theorem first_run_returns_defaults ss J userData w :
  includes ".enc" userData = false ->
  files w !! settingsPath userData = None ->
  files w !! legacySettingsPath userData = None ->
  loadSettings ss J userData w = (Normal defaultSettings, w) /\
  defaultSettings =
    JObject (list_to_map [("startMinimized", JBool false);
                          ("minimizeToTray", JBool true);
                          ("startAtLogin", JBool false)]).
Proof.
  intros Hinc Hcur Hleg. split; [|reflexivity].
  rewrite (loadSettings_of_load ss J userData JNull w w).
  - by rewrite spread2_falsy.
  - apply load_first_run; [done|]. by rewrite replace_settingsPath.
Qed.

Lemma first_run_returns_defaults_witness :
  loadSettings example.keyring example.json example.userData example.emptyWorld
    = (Normal defaultSettings, example.emptyWorld).
Proof.
  exact (proj1 (first_run_returns_defaults example.keyring example.json
                  example.userData example.emptyWorld eq_refl eq_refl eq_refl)).
Defined.

(** C7. Shallow merge and extra keys.  For every object that the store
    loads, [loadSettings] returns the object whose properties are those of
    the loaded object, completed by the defaults on the keys it lacks (so
    [{startMinimized: true}] becomes [{startMinimized: true, minimizeToTray:
    true, startAtLogin: false}]); and [saveSettings] of what was loaded
    serialises that whole object, keys unknown to the defaults included:
    encrypted to settings.enc with a keystore, in plain text to the fallback
    file without one. *)
Theorem merge_keeps_loaded_keys ss J userData props w w1 :
  secureStore.load ss J (settingsPath userData) JNull w = (Normal (JObject props), w1) ->
  let merged := props ∪ ownProperties defaultSettings in
  loadSettings ss J userData w = (Normal (JObject merged), w1) /\
  (forall k x, props !! k = Some x -> merged !! k = Some x) /\
  (forall k, props !! k = None -> merged !! k = ownProperties defaultSettings !! k) /\
  spread2 defaultSettings (JObject {[ "startMinimized" := JBool true ]}) =
    JObject (list_to_map [("startMinimized", JBool true);
                          ("minimizeToTray", JBool true);
                          ("startAtLogin", JBool false)]) /\
  (safeStorage.isEncryptionAvailable ss = true ->
   forall blob,
     safeStorage.encryptString ss (JSON.stringify J (JObject merged)) = Some blob ->
     saveSettings ss J userData (JObject merged) w1 =
       (Normal true,
        mkWorld (<[settingsPath userData := File blob]> (files w1))
                (output w1 ++ [(LogLevel, "Data saved with encryption")]))) /\
  (safeStorage.isEncryptionAvailable ss = false ->
   files w1 !! (settingsPath userData +:+ ".json") <> Some Dir ->
   saveSettings ss J userData (JObject merged) w1 =
     (Normal true,
      mkWorld (<[settingsPath userData +:+ ".json" :=
                   File (JSON.stringify J (JObject merged))]> (files w1))
              (output w1 ++ [(WarnLevel, "Encryption not available - saving unencrypted")]))).
Proof.
  intros Hload merged. repeat split.
  - exact (loadSettings_of_load _ _ _ _ _ _ Hload).
  - intros k x Hk. by apply lookup_union_Some_l.
  - intros k Hk. by apply lookup_union_r.
  - intros Hav blob Henc. apply save_encrypted; [done..|].
    by eapply load_value_current_writable.
  - intros Hav Hdir. by apply save_unavailable.
Qed.

Lemma merge_keeps_loaded_keys_witness :
  let w := example.onDisk
             [(example.current,
               File (default "" (example.encrypt (example.stringify example.withTheme))))] in
  exists merged,
    loadSettings example.keyring example.json example.userData w
      = (Normal (JObject merged), w) /\
    merged !! "theme" = Some (JString "dark") /\
    merged !! "startMinimized" = Some (JBool true) /\
    merged !! "minimizeToTray" = Some (JBool true) /\
    example.parse (example.stringify (JObject merged)) = Some (JObject merged).
Proof.
  destruct (merge_keeps_loaded_keys example.keyring example.json example.userData
              (<["startMinimized" := JBool true]> {[ "theme" := JString "dark" ]})
              (example.onDisk
                 [(example.current,
                   File (default "" (example.encrypt (example.stringify example.withTheme))))])
              (example.onDisk
                 [(example.current,
                   File (default "" (example.encrypt (example.stringify example.withTheme))))])
              eq_refl)
    as (Hload & _).
  eexists. split; [exact Hload|]. vm_compute. auto.
Defined.

(** C8. [delete] removes the current file and the legacy file when they are
    there and reports success, touching no other path; a second call, or a
    call when neither file exists, reports success and changes nothing. *)
Theorem delete_removes_both_idempotent filePath w :
  files w !! filePath <> Some Dir ->
  files w !! replace ".enc" ".json" filePath <> Some Dir ->
  let w1 := mkWorld (delete (replace ".enc" ".json" filePath)
                       (delete filePath (files w))) (output w) in
  secureStore.delete filePath w = (Normal true, w1) /\
  files w1 !! filePath = None /\
  files w1 !! replace ".enc" ".json" filePath = None /\
  (forall p, p <> filePath -> p <> replace ".enc" ".json" filePath ->
             files w1 !! p = files w !! p) /\
  secureStore.delete filePath w1 = (Normal true, w1) /\
  (files w !! filePath = None ->
   files w !! replace ".enc" ".json" filePath = None ->
   secureStore.delete filePath w = (Normal true, w)).
Proof.
  intros Hcur Hleg w1.
  assert (H1 : files w1 !! filePath = None).
  { simpl. destruct (decide (filePath = replace ".enc" ".json" filePath)) as [<-|Hne].
    - apply lookup_delete_eq.
    - rewrite lookup_delete_ne by done. apply lookup_delete_eq. }
  assert (H2 : files w1 !! replace ".enc" ".json" filePath = None)
    by apply lookup_delete_eq.
  split; [by apply delete_files|]. split; [done|]. split; [done|]. split; [|split].
  - intros p Hp1 Hp2. simpl. by rewrite !lookup_delete_ne.
  - by apply delete_nothing.
  - apply delete_nothing.
Qed.

Lemma delete_removes_both_idempotent_witness :
  let w := example.onDisk
             [(example.current, File "v10}{");
              (example.legacy, File "{}");
              (example.fallback, File "{}")] in
  secureStore.delete example.current w
    = (Normal true, example.onDisk [(example.fallback, File "{}")]) /\
  secureStore.delete example.current (example.onDisk [(example.fallback, File "{}")])
    = (Normal true, example.onDisk [(example.fallback, File "{}")]).
Proof.
  destruct (delete_removes_both_idempotent example.current
              (example.onDisk
                 [(example.current, File "v10}{");
                  (example.legacy, File "{}");
                  (example.fallback, File "{}")])
              ltac:(vm_compute; discriminate) ltac:(vm_compute; discriminate))
    as (Hdel & _ & _ & _ & Hagain & _).
  split; [exact Hdel | exact Hagain].
Defined.

(** C9. The plain-text file that [save] writes without a keystore lies at
    [filePath + '.json'] (settings.enc.json for the settings), which is
    neither of the two paths that [delete] unlinks: it is still there, with
    its content, after [delete]. *)
Theorem delete_leaves_fallback_file ss J userData data w :
  safeStorage.isEncryptionAvailable ss = false ->
  files w !! (settingsPath userData +:+ ".json") <> Some Dir ->
  settingsPath userData +:+ ".json" = path_join userData "settings.enc.json" /\
  exists w1,
    saveSettings ss J userData data w = (Normal true, w1) /\
    files w1 !! path_join userData "settings.enc.json"
      = Some (File (JSON.stringify J data)) /\
    exists ok w2,
      secureStore.delete (settingsPath userData) w1 = (Normal ok, w2) /\
      files w2 !! path_join userData "settings.enc.json"
        = Some (File (JSON.stringify J data)) /\
      (forall p, p <> settingsPath userData ->
                 p <> replace ".enc" ".json" (settingsPath userData) ->
                 files w2 !! p = files w1 !! p).
Proof.
  intros Hav Hdir.
  assert (Hpath : settingsPath userData +:+ ".json" = path_join userData "settings.enc.json").
  { unfold settingsPath, path_join. by rewrite !string_app_assoc. }
  split; [exact Hpath|].
  eexists. split; [by apply save_unavailable|]. rewrite <- Hpath. simpl.
  split; [apply lookup_insert_eq|].
  set (w1 := mkWorld _ _).
  assert (Hframe : forall p, p <> settingsPath userData ->
                     p <> replace ".enc" ".json" (settingsPath userData) ->
                     exists ok w2, secureStore.delete (settingsPath userData) w1 = (Normal ok, w2) /\
                       files w2 !! p = files w1 !! p)
    by (intros; by apply delete_frame).
  destruct (Hframe (settingsPath userData +:+ ".json")
              (fallback_ne_current _) (fallback_ne_legacy _)) as (ok & w2 & Hdel & Hkeep).
  exists ok, w2. split; [exact Hdel|]. split.
  - rewrite Hkeep. apply lookup_insert_eq.
  - intros p Hp1 Hp2. destruct (Hframe p Hp1 Hp2) as (ok' & w2' & Hdel' & Hkeep').
    rewrite Hdel in Hdel'. by injection Hdel' as -> ->.
Qed.

Lemma delete_leaves_fallback_file_witness :
  exists w1 w2,
    saveSettings example.noKeyring example.json example.userData
      example.startMinimizedOnly example.emptyWorld = (Normal true, w1) /\
    secureStore.delete example.current w1 = (Normal true, w2) /\
    files w2 !! example.fallback
      = Some (File (example.stringify example.startMinimizedOnly)).
Proof.
  destruct (delete_leaves_fallback_file example.noKeyring example.json
              example.userData example.startMinimizedOnly example.emptyWorld
              eq_refl ltac:(vm_compute; discriminate))
    as (_ & w1 & Hsave & _ & ok & w2 & Hdel & Hkeep & _).
  exists w1, w2. split; [exact Hsave|]. split; [|exact Hkeep].
  vm_compute in Hsave. injection Hsave as <-.
  vm_compute in Hdel. injection Hdel as <- <-. vm_compute. reflexivity.
Defined.

(** C10. A stored blob that decodes to a falsy value ([null], [false], [0],
    the empty string) is returned as it is by [secureStore.load], without
    any error, and discarded by [loadSettings], which returns exactly the
    default settings.  The first part is for whatever path the value came
    from, the second for a blob at the current path. *)
Theorem falsy_blob_yields_defaults ss J userData v :
  v = JNull \/ v = JBool false \/ (exists sign, v = JNumber (S754_zero sign)) \/
    v = JString "" ->
  (forall w w',
     secureStore.load ss J (settingsPath userData) JNull w = (Normal v, w') ->
     loadSettings ss J userData w = (Normal defaultSettings, w')) /\
  (forall blob text w,
     safeStorage.isEncryptionAvailable ss = true ->
     files w !! settingsPath userData = Some (File blob) ->
     safeStorage.decryptString ss blob = Some text ->
     JSON.parse J text = Some v ->
     secureStore.load ss J (settingsPath userData) JNull w = (Normal v, w) /\
     loadSettings ss J userData w = (Normal defaultSettings, w)).
Proof.
  intros Hv.
  assert (Hfalsy : toBoolean v = false) by (apply toBoolean_false_iff; tauto).
  assert (Hgen : forall w w',
     secureStore.load ss J (settingsPath userData) JNull w = (Normal v, w') ->
     loadSettings ss J userData w = (Normal defaultSettings, w')).
  { intros w w' Hload.
    rewrite (loadSettings_of_load _ _ _ _ _ _ Hload). by rewrite spread2_falsy. }
  split; [exact Hgen|].
  intros blob text w Hav Hcur Hdec Hparse.
  assert (Hload : secureStore.load ss J (settingsPath userData) JNull w = (Normal v, w)).
  { eapply load_current; [done..|]. simpl. by rewrite Hdec. }
  split; [exact Hload | exact (Hgen _ _ Hload)].
Qed.

Lemma falsy_blob_yields_defaults_witness :
  let w := example.onDisk [(example.current, File "v100")] in
  secureStore.load example.keyring example.json example.current JNull w
    = (Normal (JNumber (S754_zero false)), w) /\
  loadSettings example.keyring example.json example.userData w
    = (Normal defaultSettings, w).
Proof.
  exact (proj2 (falsy_blob_yields_defaults example.keyring example.json
                  example.userData (JNumber (S754_zero false))
                  (or_intror (or_intror (or_introl (ex_intro _ false eq_refl)))))
           "v100" "0" (example.onDisk [(example.current, File "v100")])
           eq_refl eq_refl eq_refl eq_refl).
Defined.

(** * Further properties *)

(** ** The store beyond the claims *)

(** X1. Round trip through the encrypted file.  With a working keystore,
    the object that [saveSettings] stores is what the next [loadSettings]
    returns, each of its properties with its value and the defaults on the
    keys it lacks, whatever was at settings.enc before and whatever else is
    on disk: a stale settings.json is neither read nor removed. *)
Theorem encrypted_round_trip ss J userData props blob w :
  safeStorage.isEncryptionAvailable ss = true ->
  files w !! settingsPath userData <> Some Dir ->
  safeStorage.encryptString ss (JSON.stringify J (JObject props)) = Some blob ->
  safeStorage.decryptString ss blob = Some (JSON.stringify J (JObject props)) ->
  JSON.parse J (JSON.stringify J (JObject props)) = Some (JObject props) ->
  exists merged w1,
    saveSettings ss J userData (JObject props) w = (Normal true, w1) /\
    files w1 = <[settingsPath userData := File blob]> (files w) /\
    loadSettings ss J userData w1 = (Normal (JObject merged), w1) /\
    (forall k x, props !! k = Some x -> merged !! k = Some x) /\
    (forall k, props !! k = None -> merged !! k = ownProperties defaultSettings !! k).
Proof.
  intros Hav Hdir Henc Hdec Hparse.
  exists (props ∪ ownProperties defaultSettings). eexists.
  split; [by apply save_encrypted|]. split; [reflexivity|].
  split.
  - apply (loadSettings_of_load ss J userData (JObject props)).
    eapply (load_current ss J _ _ (File blob)); [done| |].
    + simpl. apply lookup_insert_eq.
    + simpl. by rewrite Hdec.
  - split; [intros k x Hk; by apply lookup_union_Some_l|].
    intros k Hk. by apply lookup_union_r.
Qed.

Lemma encrypted_round_trip_witness :
  let w := example.onDisk
             [(example.current, File "left over");
              (example.legacy, File (example.stringify defaultSettings))] in
  exists merged w1,
    saveSettings example.keyring example.json example.userData example.withTheme w
      = (Normal true, w1) /\
    files w1 !! example.legacy = Some (File (example.stringify defaultSettings)) /\
    loadSettings example.keyring example.json example.userData w1
      = (Normal (JObject merged), w1) /\
    merged !! "theme" = Some (JString "dark") /\
    merged !! "startMinimized" = Some (JBool true) /\
    merged !! "startAtLogin" = Some (JBool false).
Proof.
  destruct (encrypted_round_trip example.keyring example.json example.userData
              (<["startMinimized" := JBool true]> {[ "theme" := JString "dark" ]})
              (default "" (example.encrypt (example.stringify example.withTheme)))
              (example.onDisk
                 [(example.current, File "left over");
                  (example.legacy, File (example.stringify defaultSettings))])
              ltac:(vm_compute; reflexivity) ltac:(vm_compute; discriminate)
              ltac:(vm_compute; reflexivity) ltac:(vm_compute; reflexivity)
              ltac:(vm_compute; reflexivity))
    as (merged & w1 & Hsave & Hfiles & Hload & Hwins & Hfill).
  exists merged, w1. split; [exact Hsave|].
  split; [rewrite Hfiles; vm_compute; reflexivity|]. split; [exact Hload|].
  split; [apply Hwins; vm_compute; reflexivity|].
  split; [apply Hwins; vm_compute; reflexivity|].
  rewrite Hfill by (vm_compute; reflexivity). vm_compute. reflexivity.
Defined.

(** X2. [loadSettings] never throws, and what it returns is always an object
    on which the three settings are defined, whatever is on disk and whatever
    the platform does. *)
Theorem loadSettings_fully_defined ss J userData w :
  exists props w',
    loadSettings ss J userData w = (Normal (JObject props), w') /\
    is_Some (props !! "startMinimized") /\
    is_Some (props !! "minimizeToTray") /\
    is_Some (props !! "startAtLogin").
Proof.
  destruct (load_returns ss J (settingsPath userData) JNull w) as (r & w' & Hload).
  exists (ownProperties r ∪ ownProperties defaultSettings), w'.
  split; [exact (loadSettings_of_load _ _ _ _ _ _ Hload)|].
  repeat split; apply lookup_union_is_Some; right; by eexists.
Qed.

(** X3. [save] is confined.  It never throws; it leaves every path alone
    but one, [filePath] with a keystore and [filePath + '.json'] without;
    when it returns [true], that path holds the output of [encryptString]
    with a keystore (never the plain text) and the JSON text without; and
    when [encryptString] throws, [save] returns [false] before any file is
    opened. *)
Theorem save_confined ss J filePath data w :
  exists ok w1,
    secureStore.save ss J filePath data w = (Normal ok, w1) /\
    (forall p,
       p <> (if safeStorage.isEncryptionAvailable ss then filePath
             else filePath +:+ ".json") ->
       files w1 !! p = files w !! p) /\
    (ok = true ->
     if safeStorage.isEncryptionAvailable ss
     then exists blob,
            safeStorage.encryptString ss (JSON.stringify J data) = Some blob /\
            files w1 !! filePath = Some (File blob)
     else files w1 !! (filePath +:+ ".json") = Some (File (JSON.stringify J data))) /\
    (safeStorage.isEncryptionAvailable ss = true ->
     safeStorage.encryptString ss (JSON.stringify J data) = None ->
     ok = false /\ files w1 = files w).
Proof.
  destruct (safeStorage.isEncryptionAvailable ss) eqn:Hav.
  - destruct (safeStorage.encryptString ss (JSON.stringify J data)) as [blob|] eqn:Henc.
    + destruct (files w !! filePath) as [[c|]|] eqn:Hcur.
      2: { exists false. eexists. split; [by io_run|]. simpl. done. }
      all: exists true; eexists;
        (split; [apply save_encrypted; [done..|rewrite Hcur; discriminate]|]);
        simpl; split; [intros p Hp; by rewrite lookup_insert_ne|];
        (split; [|done]);
        intros _; exists blob; (split; [done|]); apply lookup_insert_eq.
    + exists false. eexists. split; [by apply save_encrypt_throws|]. done.
  - destruct (files w !! (filePath +:+ ".json")) as [[c|]|] eqn:Hfb.
    2: { exists false. eexists. split; [by io_run|]. simpl. done. }
    all: exists true; eexists;
      (split; [apply save_unavailable; [done|rewrite Hfb; discriminate]|]);
      simpl; split; [intros p Hp; by rewrite lookup_insert_ne|];
      (split; [|done]);
      intros _; apply lookup_insert_eq.
Qed.

(** Every run of [load] either leaves the files alone or is a migration. *)
Lemma load_cases ss J filePath defaultValue w :
  exists r w1,
    secureStore.load ss J filePath defaultValue w = (Normal r, w1) /\
    (files w1 = files w \/
     (safeStorage.isEncryptionAvailable ss = true /\
      files w !! filePath = None /\
      exists data,
        files w !! replace ".enc" ".json" filePath = Some (File data) /\
        JSON.parse J data = Some r /\
        match safeStorage.encryptString ss (JSON.stringify J r) with
        | Some blob =>
            files w1 = delete (replace ".enc" ".json" filePath)
                         (<[filePath := File blob]> (files w))
        | None => files w1 = delete (replace ".enc" ".json" filePath) (files w)
        end)).
Proof.
  destruct (safeStorage.isEncryptionAvailable ss) eqn:Hav.
  2: { destruct (load_no_keystore_frame ss J filePath defaultValue w Hav)
         as (r & log & Hload).
       exists r. eexists. split; [exact Hload|]. by left. }
  destruct (files w !! filePath) as [node|] eqn:Hcur.
  { destruct (decoded ss J node) as [v|] eqn:Hdec.
    - exists v, w. split; [by eapply load_current|]. by left.
    - exists defaultValue. eexists.
      split; [by eapply load_current_undecodable|]. by left. }
  destruct (files w !! replace ".enc" ".json" filePath) as [[data|]|] eqn:Hleg.
  - destruct (JSON.parse J data) as [v|] eqn:Hparse.
    + destruct (safeStorage.encryptString ss (JSON.stringify J v)) as [blob|] eqn:Henc.
      * exists v. eexists. split; [by eapply load_migrates|].
        right. split; [done|]. split; [done|]. exists data. by rewrite Henc.
      * exists v. eexists. split; [by eapply load_migration_without_copy|].
        right. split; [done|]. split; [done|]. exists data. by rewrite Henc.
    + exists defaultValue. eexists. split; [by io_run|]. by left.
  - exists defaultValue. eexists. split; [by io_run|]. by left.
  - exists defaultValue, w. split; [by apply load_first_run|]. by left.
Qed.

(** X4. [load] is confined.  It never throws; no path other than [filePath]
    and its legacy twin ever changes; and the files change at all only in a
    migration: keystore available, nothing at [filePath], a legacy file that
    parses, whose value is then the result. *)
Theorem load_confined ss J filePath defaultValue w :
  exists r w1,
    secureStore.load ss J filePath defaultValue w = (Normal r, w1) /\
    (forall p, p <> filePath -> p <> replace ".enc" ".json" filePath ->
               files w1 !! p = files w !! p) /\
    (files w1 <> files w ->
     safeStorage.isEncryptionAvailable ss = true /\
     files w !! filePath = None /\
     exists data,
       files w !! replace ".enc" ".json" filePath = Some (File data) /\
       JSON.parse J data = Some r).
Proof.
  destruct (load_cases ss J filePath defaultValue w)
    as (r & w1 & Hload & [Hsame | (Hav & Hcur & data & Hleg & Hparse & Hfiles)]).
  - exists r, w1. split; [exact Hload|]. split; [by rewrite Hsame|done].
  - exists r, w1. split; [exact Hload|]. split; [|by eauto].
    intros p Hp1 Hp2.
    destruct (safeStorage.encryptString ss (JSON.stringify J r)); rewrite Hfiles.
    + rewrite lookup_delete_ne by done. by rewrite lookup_insert_ne.
    + by rewrite lookup_delete_ne.
Qed.

(** X5. A legacy file that cannot be read or parsed is never deleted: [load]
    logs the error and returns the default, keystore or not, and every file
    is as before. *)
Theorem unusable_legacy_is_kept ss J filePath defaultValue node w :
  files w !! filePath = None ->
  files w !! replace ".enc" ".json" filePath = Some node ->
  (forall data, node = File data -> JSON.parse J data = None) ->
  secureStore.load ss J filePath defaultValue w =
    (Normal defaultValue,
     mkWorld (files w) (output w ++ [(ErrorLevel, "Error loading secure data:")])).
Proof.
  intros Hcur Hleg Hbad. destruct node as [data|].
  - specialize (Hbad data eq_refl). by io_run.
  - by io_run.
Qed.

Lemma unusable_legacy_is_kept_witness :
  let w := example.onDisk [(example.legacy, File "{startMinimized: yes")] in
  secureStore.load example.keyring example.json example.current JNull w =
    (Normal JNull,
     mkWorld (files w) [(ErrorLevel, "Error loading secure data:")]).
Proof.
  apply (unusable_legacy_is_kept example.keyring example.json example.current JNull
           (File "{startMinimized: yes")
           (example.onDisk [(example.legacy, File "{startMinimized: yes")])
           eq_refl eq_refl).
  intros data [= <-]. reflexivity.
Defined.

(** X6. [delete] resets the store: after it, [load] returns the default
    value on every platform and changes nothing, and [loadSettings] returns
    the default settings. *)
Theorem delete_then_load_is_default ss J userData w :
  files w !! settingsPath userData <> Some Dir ->
  files w !! replace ".enc" ".json" (settingsPath userData) <> Some Dir ->
  exists w1,
    secureStore.delete (settingsPath userData) w = (Normal true, w1) /\
    (forall defaultValue,
       secureStore.load ss J (settingsPath userData) defaultValue w1
         = (Normal defaultValue, w1)) /\
    loadSettings ss J userData w1 = (Normal defaultSettings, w1).
Proof.
  intros Hcur Hleg. eexists. split; [by apply delete_files|].
  set (w1 := mkWorld _ _).
  assert (Hload : forall d, secureStore.load ss J (settingsPath userData) d w1
                            = (Normal d, w1)).
  { intros d. apply load_first_run; simpl.
    - destruct (decide (settingsPath userData
                        = replace ".enc" ".json" (settingsPath userData))) as [<-|Hne].
      + apply lookup_delete_eq.
      + rewrite lookup_delete_ne by done. apply lookup_delete_eq.
    - apply lookup_delete_eq. }
  split; [exact Hload|].
  rewrite (loadSettings_of_load _ _ _ _ _ _ (Hload JNull)). by rewrite spread2_falsy.
Qed.

Lemma delete_then_load_is_default_witness :
  let w := example.onDisk
             [(example.current,
               File (default "" (example.encrypt (example.stringify example.withTheme))));
              (example.legacy, File (example.stringify example.startMinimizedOnly))] in
  exists w1,
    secureStore.delete example.current w = (Normal true, w1) /\
    loadSettings example.keyring example.json example.userData w1
      = (Normal defaultSettings, w1).
Proof.
  destruct (delete_then_load_is_default example.keyring example.json example.userData
              (example.onDisk
                 [(example.current,
                   File (default "" (example.encrypt (example.stringify example.withTheme))));
                  (example.legacy, File (example.stringify example.startMinimizedOnly))])
              ltac:(vm_compute; discriminate) ltac:(vm_compute; discriminate))
    as (w1 & Hdel & _ & Hload).
  exists w1. split; [exact Hdel | exact Hload].
Defined.

(** X7. [delete] is not all-or-nothing.  With a directory at the legacy
    path, the current file is unlinked first, the second [unlinkSync] throws,
    and [delete] reports [false] although settings.enc is gone. *)
Theorem delete_partial_failure filePath blob w :
  files w !! filePath = Some (File blob) ->
  files w !! replace ".enc" ".json" filePath = Some Dir ->
  secureStore.delete filePath w =
    (Normal false,
     mkWorld (delete filePath (files w))
             (output w ++ [(ErrorLevel, "Error deleting secure data:")])).
Proof.
  intros Hcur Hleg. destruct w as [fs0 log0]. simpl in *.
  assert (Hne : filePath <> replace ".enc" ".json" filePath) by congruence.
  io_run. repeat (rewrite lookup_delete_ne by done; io_run). done.
Qed.

Lemma delete_partial_failure_witness :
  secureStore.delete example.current
    (example.onDisk [(example.current, File "v10}{"); (example.legacy, Dir)])
  = (Normal false,
     mkWorld {[ example.legacy := Dir ]}
             [(ErrorLevel, "Error deleting secure data:")]).
Proof.
  rewrite (delete_partial_failure example.current "v10}{"
             (example.onDisk [(example.current, File "v10}{"); (example.legacy, Dir)])
             eq_refl eq_refl).
  vm_compute. reflexivity.
Defined.

(** X8. The current file wins.  When both files exist and settings.enc
    decodes, [load] returns its value and does not touch the legacy file,
    which stays on disk in plain text. *)
Theorem current_file_wins ss J filePath defaultValue blob stale v w :
  safeStorage.isEncryptionAvailable ss = true ->
  files w !! filePath = Some (File blob) ->
  files w !! replace ".enc" ".json" filePath = Some (File stale) ->
  decoded ss J (File blob) = Some v ->
  exists w1,
    secureStore.load ss J filePath defaultValue w = (Normal v, w1) /\
    w1 = w /\
    files w1 !! replace ".enc" ".json" filePath = Some (File stale).
Proof.
  intros Hav Hcur Hleg Hdec. exists w.
  split; [by eapply load_current|]. done.
Qed.

Lemma current_file_wins_witness :
  let w := example.onDisk
             [(example.current,
               File (default "" (example.encrypt (example.stringify example.withTheme))));
              (example.legacy, File (example.stringify example.startMinimizedOnly))] in
  secureStore.load example.keyring example.json example.current JNull w
    = (Normal example.withTheme, w).
Proof.
  destruct (current_file_wins example.keyring example.json example.current JNull
              (default "" (example.encrypt (example.stringify example.withTheme)))
              (example.stringify example.startMinimizedOnly)
              example.withTheme
              (example.onDisk
                 [(example.current,
                   File (default "" (example.encrypt (example.stringify example.withTheme))));
                  (example.legacy, File (example.stringify example.startMinimizedOnly))])
              eq_refl eq_refl eq_refl eq_refl)
    as (w1 & Hload & -> & _).
  exact Hload.
Defined.

(** ** Substrings *)

Lemma app_cons c (a b : string) : String c a +:+ b = String c (a +:+ b).
Proof. reflexivity. Qed.

Lemma app_empty_r (a : string) : a +:+ "" = a.
Proof. induction a as [|c a IH]; [reflexivity|]. by rewrite app_cons, IH. Qed.

Lemma startsWith_iff pat s :
  startsWith pat s = true <-> exists post, s = pat +:+ post.
Proof.
  revert s. induction pat as [|a pat IH]; intros s.
  - split; [intros _; by exists s|done].
  - destruct s as [|b s]; simpl.
    + split; [done|]. by intros [post [=]].
    + destruct (Ascii.eqb_spec a b) as [->|Hne].
      * rewrite IH. split; intros [post Hpost]; exists post.
        -- by rewrite app_cons, Hpost.
        -- rewrite app_cons in Hpost. by injection Hpost.
      * split; [done|]. intros [post Hpost]. rewrite app_cons in Hpost.
        injection Hpost as ? ?. done.
Qed.

Lemma includes_unfold pat s :
  includes pat s =
  startsWith pat s ||
  match s with
  | EmptyString => false
  | String _ s' => includes pat s'
  end.
Proof. by destruct s. Qed.

Lemma includes_iff pat s :
  includes pat s = true <-> exists pre post, s = pre +:+ pat +:+ post.
Proof.
  induction s as [|c s IH]; rewrite includes_unfold, orb_true_iff, startsWith_iff.
  - split.
    + intros [[post Hpost]|?]; [|done]. by exists "", post.
    + intros (pre & post & Heq). left. destruct pre as [|x pre]; [by exists post|].
      by rewrite app_cons in Heq.
  - rewrite IH. split.
    + intros [[post Hpost]|(pre & post & Heq)].
      * by exists "", post.
      * exists (String c pre), post. by rewrite app_cons, Heq.
    + intros (pre & post & Heq). destruct pre as [|x pre].
      * left. by exists post.
      * right. rewrite app_cons in Heq. injection Heq as -> ->. by exists pre, post.
Qed.

Lemma dropChars_app pre s : dropChars (String.length pre) (pre +:+ s) = s.
Proof. induction pre as [|c pre IH]; [by destruct s|]. by rewrite app_cons. Qed.

Lemma dropChars_split n s :
  n <= String.length s -> exists pre, s = pre +:+ dropChars n s /\ String.length pre = n.
Proof.
  revert s. induction n as [|n IH]; intros s Hn.
  - exists "". by destruct s.
  - destruct s as [|c s]; simpl in *; [lia|].
    destruct (IH s) as (pre & Heq & Hlen); [lia|].
    exists (String c pre). rewrite app_cons, <- Heq. simpl. by rewrite Hlen.
Qed.

Lemma endsWith_iff suffix s :
  endsWith suffix s = true <-> exists pre, s = pre +:+ suffix.
Proof.
  unfold endsWith. split.
  - destruct (Nat.ltb_spec (String.length s) (String.length suffix)); [done|].
    intros Heq%String.eqb_eq.
    destruct (dropChars_split (String.length s - String.length suffix) s)
      as (pre & Hs & _); [lia|].
    exists pre. by rewrite <- Heq.
  - intros [pre ->]. rewrite length_app.
    destruct (Nat.ltb_spec (String.length pre + String.length suffix)
                (String.length suffix)); [lia|].
    replace (String.length pre + String.length suffix - String.length suffix)
      with (String.length pre) by lia.
    rewrite dropChars_app. apply String.eqb_refl.
Qed.

(** Two ways of cutting one string: the shorter tail is a tail of the
    longer. *)
Lemma app_eq_app (p1 s1 p2 s2 : string) :
  p1 +:+ s1 = p2 +:+ s2 ->
  (exists k, s1 = k +:+ s2 /\ p2 = p1 +:+ k) \/
  (exists k, s2 = k +:+ s1 /\ p1 = p2 +:+ k).
Proof.
  revert p2. induction p1 as [|c p1 IH]; intros p2 Heq.
  - left. exists p2. done.
  - destruct p2 as [|c' p2].
    + right. exists (String c p1). done.
    + rewrite !app_cons in Heq. injection Heq as -> Heq.
      destruct (IH _ Heq) as [(k & ? & ->)|(k & ? & ->)]; [left|right];
        exists k; by rewrite app_cons.
Qed.

Lemma app_inv_tail (a b s : string) : a +:+ s = b +:+ s -> a = b.
Proof.
  intros Heq. destruct (app_eq_app _ _ _ _ Heq) as [(k & Hk & ->)|(k & Hk & ->)];
    apply (f_equal String.length) in Hk; rewrite length_app in Hk;
    destruct k; simpl in Hk; try lia; by rewrite app_empty_r.
Qed.

(** ** Request filtering and navigation *)

Lemma onBeforeRequest_allowed_iff hostname :
  onBeforeRequest hostname = false <->
  exists domain,
    In domain allowedDomains /\
    (hostname = domain \/ exists sub, hostname = sub +:+ "." +:+ domain).
Proof.
  unfold onBeforeRequest. rewrite negb_false_iff, existsb_exists.
  split; intros (domain & Hin & H); exists domain; (split; [done|]).
  - apply orb_true_iff in H as [H%String.eqb_eq|H%endsWith_iff]; auto.
  - apply orb_true_iff. destruct H as [->|H]; [left; apply String.eqb_refl|].
    right. by apply endsWith_iff.
Qed.

(** No listed domain ends in another one, with or without a dot in front. *)
Lemma allowedDomains_unrelated :
  forallb (fun d =>
     forallb (fun d' =>
        negb (endsWith ("." +:+ d') d) &&
        implb (endsWith d ("." +:+ d')) (String.eqb d d') &&
        implb (endsWith d d') (String.eqb d d'))
       allowedDomains)
    allowedDomains = true.
Proof. vm_compute. reflexivity. Qed.

Lemma allowedDomains_pair d d' :
  In d allowedDomains -> In d' allowedDomains ->
  endsWith ("." +:+ d') d = false /\
  (endsWith d ("." +:+ d') = true -> d = d') /\
  (endsWith d d' = true -> d = d').
Proof.
  intros Hd Hd'. pose proof allowedDomains_unrelated as H.
  rewrite forallb_forall in H. specialize (H d Hd).
  rewrite forallb_forall in H. specialize (H d' Hd').
  apply andb_true_iff in H as [[H1 H2]%andb_true_iff H3].
  split; [by apply negb_true_iff|]. split.
  - intros E. rewrite E in H2. by apply String.eqb_eq.
  - intros E. rewrite E in H3. by apply String.eqb_eq.
Qed.

(** A host that ends in a listed domain gets through only if that domain
    starts a label of its own. *)
Lemma allowed_host_boundary domain pre :
  In domain allowedDomains ->
  onBeforeRequest (pre +:+ domain) = false ->
  pre = "" \/ exists sub, pre = sub +:+ ".".
Proof.
  intros Hin (d' & Hin' & H)%onBeforeRequest_allowed_iff.
  destruct (allowedDomains_pair domain d' Hin Hin') as (H1 & H2 & H3).
  destruct H as [Heq|[sub Heq]].
  - left. change d' with ("" +:+ d') in Heq.
    destruct (app_eq_app _ _ _ _ Heq) as [(k & _ & Hk)|(k & Hk & ->)].
    + destruct pre; [done|by rewrite app_cons in Hk].
    + assert (domain = d') as <- by (apply H3, endsWith_iff; eauto).
      apply (f_equal String.length) in Hk. rewrite length_app in Hk.
      destruct k; [done|simpl in Hk; lia].
  - destruct (app_eq_app _ _ _ _ Heq) as [(k & Hk & _)|(k & Hk & ->)].
    + assert (endsWith ("." +:+ d') domain = true) by (apply endsWith_iff; eauto).
      congruence.
    + assert (domain = d') as <- by (apply H2, endsWith_iff; eauto).
      apply app_inv_tail in Hk as <-. right. by exists sub.
Qed.

(** X9. The request filter lets a request through exactly when its host is a
    listed domain or a subdomain of one; a host that merely ends in the name
    of a listed domain (evilgoogle.com) is cancelled. *)
Theorem request_filter_exact :
  (forall hostname,
     onBeforeRequest hostname = false <->
     exists domain,
       In domain allowedDomains /\
       (hostname = domain \/ exists sub, hostname = sub +:+ "." +:+ domain)) /\
  (forall domain pre,
     In domain allowedDomains ->
     pre <> "" ->
     (forall sub, pre <> sub +:+ ".") ->
     onBeforeRequest (pre +:+ domain) = true).
Proof.
  split; [exact onBeforeRequest_allowed_iff|].
  intros domain pre Hin Hne Hdot.
  destruct (onBeforeRequest (pre +:+ domain)) eqn:E; [done|].
  destruct (allowed_host_boundary _ _ Hin E) as [->|[sub ->]]; [done|].
  by destruct (Hdot sub).
Qed.

Lemma onCertificateError_waived_iff hostname :
  onCertificateError hostname = (true, true) <->
  exists pre domain,
    In domain ["google.com"; "googleapis.com"; "gstatic.com"] /\
    hostname = pre +:+ domain.
Proof.
  unfold onCertificateError. split.
  - destruct (endsWith "google.com" hostname) eqn:E1.
    { apply endsWith_iff in E1 as [pre ->]. intros _. exists pre, "google.com".
      simpl. auto. }
    destruct (endsWith "googleapis.com" hostname) eqn:E2.
    { apply endsWith_iff in E2 as [pre ->]. intros _. exists pre, "googleapis.com".
      simpl. auto. }
    destruct (endsWith "gstatic.com" hostname) eqn:E3; [|done].
    apply endsWith_iff in E3 as [pre ->]. intros _. exists pre, "gstatic.com".
    simpl. auto.
  - intros (pre & domain & Hin & ->).
    assert (endsWith domain (pre +:+ domain) = true) as Hends
      by (apply endsWith_iff; eauto).
    simpl in Hin. destruct Hin as [<-|[<-|[<-|[]]]]; rewrite Hends;
      by rewrite ?orb_true_r.
Qed.

(** X10. The certificate handler waives the error for every host whose name
    ends in google.com, googleapis.com or gstatic.com, and for no other;
    among them are hosts of foreign domains (evilgoogle.com), the very hosts
    to which the request filter cancels every request. *)
Theorem certificate_errors_waived_by_suffix :
  (forall hostname,
     onCertificateError hostname = (true, true) <->
     exists pre domain,
       In domain ["google.com"; "googleapis.com"; "gstatic.com"] /\
       hostname = pre +:+ domain) /\
  (forall hostname,
     onCertificateError hostname = (true, true) \/
     onCertificateError hostname = (false, false)) /\
  (forall pre domain,
     In domain ["google.com"; "googleapis.com"; "gstatic.com"] ->
     pre <> "" ->
     (forall sub, pre <> sub +:+ ".") ->
     onCertificateError (pre +:+ domain) = (true, true) /\
     onBeforeRequest (pre +:+ domain) = true).
Proof.
  split; [exact onCertificateError_waived_iff|]. split.
  - intros hostname. unfold onCertificateError. destruct (_ || _); auto.
  - intros pre domain Hin Hne Hdot. split.
    + apply onCertificateError_waived_iff. eauto.
    + assert (Hin' : In domain allowedDomains).
      { simpl in *. destruct Hin as [<-|[<-|[<-|[]]]]; auto. }
      destruct (onBeforeRequest (pre +:+ domain)) eqn:E; [done|].
      destruct (allowed_host_boundary _ _ Hin' E) as [->|[sub ->]]; [done|].
      by destruct (Hdot sub).
Qed.

Lemma window_check_iff url :
  includes "accounts.google.com" url ||
  includes "gemini.google.com" url ||
  includes "google.com/accounts" url = true <->
  exists needle pre post,
    In needle ["accounts.google.com"; "gemini.google.com"; "google.com/accounts"] /\
    url = pre +:+ needle +:+ post.
Proof.
  rewrite !orb_true_iff, !includes_iff. split.
  - intros [[(pre & post & ->)|(pre & post & ->)]|(pre & post & ->)];
      eexists _, pre, post; (split; [|reflexivity]); simpl; auto.
  - intros (needle & pre & post & Hin & ->). simpl in Hin.
    destruct Hin as [<-|[<-|[<-|[]]]]; eauto 6.
Qed.

(** X11. The two handlers that [createWindow] installs agree.  A URL is
    opened or navigated to inside the application exactly when one of
    accounts.google.com, gemini.google.com, google.com/accounts occurs
    anywhere in it, path and query included; any other URL is refused by
    both and handed, once, to the default browser. *)
Theorem window_handlers_agree url :
  let mentioned :=
    exists needle pre post,
      In needle ["accounts.google.com"; "gemini.google.com"; "google.com/accounts"] /\
      url = pre +:+ needle +:+ post in
  (mentioned ->
   windowOpenHandler url = (allow, []) /\ windowWillNavigate url = (false, [])) /\
  (~ mentioned ->
   windowOpenHandler url = (deny, [url]) /\ windowWillNavigate url = (true, [url])).
Proof.
  intros mentioned. unfold windowOpenHandler, windowWillNavigate.
  pose proof (window_check_iff url) as Hiff. fold mentioned in Hiff.
  destruct (includes "accounts.google.com" url) eqn:E1,
           (includes "gemini.google.com" url) eqn:E2,
           (includes "google.com/accounts" url) eqn:E3; simpl in *;
    split; intros H; try done; try (by destruct H; apply Hiff);
    try (by apply Hiff in H).
Qed.

(** X12. In the main window a navigation also has to pass the listener of
    ['web-contents-created'], which looks at the host.  A URL that the
    window lets through because google.com/accounts occurs in it, on a host
    that contains neither gemini.google.com nor accounts.google.com, is
    cancelled by that listener and is not handed to the default browser
    either: the click has no effect at all. *)
Theorem google_accounts_path_is_dropped pre post hostname :
  includes "gemini.google.com" hostname = false ->
  includes "accounts.google.com" hostname = false ->
  mainWindowWillNavigate (pre +:+ "google.com/accounts" +:+ post) hostname = (true, []).
Proof.
  intros H1 H2. unfold mainWindowWillNavigate, contentsWillNavigate, windowWillNavigate.
  assert (includes "google.com/accounts" (pre +:+ "google.com/accounts" +:+ post) = true)
    as -> by (apply includes_iff; eauto).
  simpl. rewrite H1, H2. simpl. by rewrite !andb_false_r.
Qed.

Lemma google_accounts_path_is_dropped_witness :
  mainWindowWillNavigate "https://www.google.com/accounts/recovery" "www.google.com"
    = (true, []).
Proof.
  exact (google_accounts_path_is_dropped "https://www." "/recovery" "www.google.com"
           eq_refl eq_refl).
Defined.

(** ** Autostart *)

Ltac app_unfold :=
  unfold updateAutoLaunch, clickStartAtLogin, clickStartMinimized,
    clickMinimizeToTray, getSetting, setSetting, theSettings, liftIO,
    app_setLoginItemSettings, mkdirSync_recursive;
  unfold mbind, mret, appio_mbind, appio_mret.

Lemma lastChar_app (a b : string) c :
  String.get (String.length (a +:+ String c b) - 1) (a +:+ String c b)
  = String.get (String.length (String c b) - 1) (String c b).
Proof.
  induction a as [|x a IH]; [reflexivity|].
  rewrite app_cons. simpl String.length. rewrite Nat.sub_succ, Nat.sub_0_r.
  rewrite length_app in *. simpl String.length in *.
  replace (String.length a + S (String.length b)) with (S (String.length a + String.length b)) in * by lia.
  simpl. rewrite Nat.sub_succ, Nat.sub_0_r in IH. exact IH.
Qed.

Section autostart_facts.

Context (ss : safeStorage.t) (J : JSON.t) (userData : string) (P : Process).

Local Abbreviation item s :=
  (mkLoginItemSettings (s !! "startAtLogin") (exePath P)
     (if truthy (s !! "startMinimized") then ["--hidden"] else [])).

Lemma desktopFile_ne_autostartDir : desktopFile P <> autostartDir P.
Proof.
  unfold desktopFile, path_join. intros H. apply (f_equal String.length) in H.
  rewrite !length_app in H. simpl in H. lia.
Qed.

Lemma updateAutoLaunch_elsewhere w s items :
  String.eqb (platform P) "linux" = false ->
  updateAutoLaunch P (mkApp w s items) = (Normal tt, mkApp w s (items ++ [item s])).
Proof. intros Hp. app_unfold. simpl. by rewrite Hp. Qed.

Lemma updateAutoLaunch_enable w s items :
  platform P = "linux" ->
  truthy (s !! "startAtLogin") = true ->
  (forall c, files w !! autostartDir P <> Some (File c)) ->
  files w !! desktopFile P <> Some Dir ->
  updateAutoLaunch P (mkApp w s items) =
    (Normal tt,
     mkApp (mkWorld (<[desktopFile P := File (desktopContent P (s !! "startMinimized"))]>
                       (<[autostartDir P := Dir]> (files w)))
                    (output w ++ [(LogLevel, "Created autostart entry for Linux")]))
           s (items ++ [item s])).
Proof.
  intros Hp Hon Hdir Hfile. pose proof desktopFile_ne_autostartDir as Hne.
  destruct w as [fs0 log0]. simpl in *.
  app_unfold. simpl. rewrite Hp, Hon. simpl.
  destruct (fs0 !! autostartDir P) as [[c|]|] eqn:Ed; [by destruct (Hdir c)| |].
  - rewrite (insert_id fs0 (autostartDir P) Dir) by done.
    destruct (fs0 !! desktopFile P) as [[c|]|] eqn:Ef; [| done |]; by io_run.
  - io_run. rewrite lookup_insert_ne by done.
    destruct (fs0 !! desktopFile P) as [[c|]|] eqn:Ef; [| done |]; by io_run.
Qed.

Lemma updateAutoLaunch_disable w s items :
  platform P = "linux" ->
  truthy (s !! "startAtLogin") = false ->
  files w !! desktopFile P <> Some Dir ->
  updateAutoLaunch P (mkApp w s items) =
    (Normal tt,
     mkApp (mkWorld (delete (desktopFile P) (files w))
                    (output w ++
                     match files w !! desktopFile P with
                     | Some _ => [(LogLevel, "Removed autostart entry for Linux")]
                     | None => []
                     end))
           s (items ++ [item s])).
Proof.
  intros Hp Hoff Hfile. destruct w as [fs0 log0]. simpl in *.
  app_unfold. simpl. rewrite Hp, Hoff. simpl.
  destruct (fs0 !! desktopFile P) as [[c|]|] eqn:Ef; [| done |]; io_run.
  - done.
  - by rewrite delete_id, app_nil_r.
Qed.

End autostart_facts.

Lemma save_frame ss J filePath data w :
  exists ok w1,
    secureStore.save ss J filePath data w = (Normal ok, w1) /\
    forall p, p <> filePath -> p <> filePath +:+ ".json" ->
              files w1 !! p = files w !! p.
Proof.
  destruct (safeStorage.isEncryptionAvailable ss) eqn:Hav.
  - destruct (safeStorage.encryptString ss (JSON.stringify J data)) as [blob|] eqn:Henc.
    + destruct (files w !! filePath) as [[c|]|] eqn:Hcur;
        do 2 eexists; (split; [by io_run|]); simpl; intros p Hp1 Hp2;
        by rewrite ?lookup_insert_ne.
    + do 2 eexists. split; [by apply save_encrypt_throws|]. done.
  - destruct (files w !! (filePath +:+ ".json")) as [[c|]|] eqn:Hfb;
      do 2 eexists; (split; [by io_run|]); simpl; intros p Hp1 Hp2;
      by rewrite ?lookup_insert_ne.
Qed.

Section tray_facts.

Context (ss : safeStorage.t) (J : JSON.t) (userData : string) (P : Process).

Local Abbreviation item s :=
  (mkLoginItemSettings (s !! "startAtLogin") (exePath P)
     (if truthy (s !! "startMinimized") then ["--hidden"] else [])).

Local Abbreviation lastOf s := (String.get (String.length s - 1) s).

Lemma lastOf_settingsPath : lastOf (settingsPath userData) = Some "c"%char.
Proof.
  unfold settingsPath, path_join.
  change ("/" +:+ "settings.enc") with (String "/"%char "settings.enc").
  by rewrite lastChar_app.
Qed.

Lemma lastOf_fallback : lastOf (settingsPath userData +:+ ".json") = Some "n"%char.
Proof.
  change (settingsPath userData +:+ ".json")
    with (settingsPath userData +:+ String "."%char "json").
  by rewrite lastChar_app.
Qed.

Lemma lastOf_desktopFile : lastOf (desktopFile P) = Some "p"%char.
Proof.
  unfold desktopFile, path_join.
  change ("/" +:+ "gemini-desktop.desktop")
    with (String "/"%char "gemini-desktop.desktop").
  by rewrite lastChar_app.
Qed.

Lemma lastOf_autostartDir : lastOf (autostartDir P) = Some "t"%char.
Proof.
  unfold autostartDir. unfold path_join at 1.
  change ("/" +:+ "autostart") with (String "/"%char "autostart").
  by rewrite lastChar_app.
Qed.

(** The settings files and the autostart entry never share a path. *)
Lemma autostart_paths_apart :
  desktopFile P <> settingsPath userData /\
  desktopFile P <> settingsPath userData +:+ ".json" /\
  autostartDir P <> settingsPath userData /\
  autostartDir P <> settingsPath userData +:+ ".json".
Proof.
  pose proof lastOf_settingsPath. pose proof lastOf_fallback.
  pose proof lastOf_desktopFile. pose proof lastOf_autostartDir.
  repeat split; intros E; rewrite E in *; congruence.
Qed.

Lemma saveSettings_keeps_autostart data w :
  exists ok w1,
    saveSettings ss J userData data w = (Normal ok, w1) /\
    files w1 !! desktopFile P = files w !! desktopFile P /\
    files w1 !! autostartDir P = files w !! autostartDir P.
Proof.
  destruct (save_frame ss J (settingsPath userData) data w) as (ok & w1 & Hsave & Hframe).
  destruct autostart_paths_apart as (H1 & H2 & H3 & H4).
  exists ok, w1. split; [exact Hsave|]. split; by apply Hframe.
Qed.

Lemma clickStartAtLogin_run checked w s items ok w1 :
  saveSettings ss J userData (JObject (<["startAtLogin" := JBool checked]> s)) w
    = (Normal ok, w1) ->
  clickStartAtLogin ss J userData P checked (mkApp w s items) =
    updateAutoLaunch P (mkApp w1 (<["startAtLogin" := JBool checked]> s) items).
Proof.
  intros Hsave. unfold clickStartAtLogin, setSetting, theSettings, liftIO.
  unfold mbind, appio_mbind. simpl. by rewrite Hsave.
Qed.

Lemma clickStartMinimized_run checked w s items ok w1 :
  saveSettings ss J userData (JObject (<["startMinimized" := JBool checked]> s)) w
    = (Normal ok, w1) ->
  clickStartMinimized ss J userData checked (mkApp w s items) =
    (Normal tt, mkApp w1 (<["startMinimized" := JBool checked]> s) items).
Proof.
  intros Hsave. unfold clickStartMinimized, setSetting, theSettings, liftIO.
  unfold mbind, appio_mbind. simpl. by rewrite Hsave.
Qed.

Lemma clickMinimizeToTray_run checked w s items ok w1 :
  saveSettings ss J userData (JObject (<["minimizeToTray" := JBool checked]> s)) w
    = (Normal ok, w1) ->
  clickMinimizeToTray ss J userData checked (mkApp w s items) =
    (Normal tt, mkApp w1 (<["minimizeToTray" := JBool checked]> s) items).
Proof.
  intros Hsave. unfold clickMinimizeToTray, setSetting, theSettings, liftIO.
  unfold mbind, appio_mbind. simpl. by rewrite Hsave.
Qed.

Lemma desktopContent_flag a b :
  truthy a <> truthy b -> desktopContent P a <> desktopContent P b.
Proof.
  intros Hne Heq. apply (f_equal String.length) in Heq.
  unfold desktopContent in Heq. rewrite !length_app in Heq.
  destruct (truthy a), (truthy b); simpl in Heq; try done; lia.
Qed.

End tray_facts.

(** X13. [updateAutoLaunch] never throws and always ends by calling
    [app.setLoginItemSettings], once, with [openAtLogin] taken from the
    settings and [--hidden] among the arguments exactly when
    [settings.startMinimized] is truthy, even when the autostart directory or
    file cannot be written.  It leaves the settings alone and touches no
    path but the entry, the autostart directory and the directories above
    it, and no file at all off Linux. *)
Theorem updateAutoLaunch_always_sets_login_item P a :
  exists w',
    updateAutoLaunch P a =
      (Normal tt,
       mkApp w' (settings a)
         (loginItems a ++
          [mkLoginItemSettings (settings a !! "startAtLogin") (exePath P)
             (if truthy (settings a !! "startMinimized") then ["--hidden"] else [])])) /\
    (forall p,
       p <> desktopFile P ->
       p <> autostartDir P ->
       (forall below, autostartDir P <> p +:+ "/" +:+ below) ->
       files w' !! p = files (world a) !! p) /\
    (platform P <> "linux" -> w' = world a).
Proof.
  destruct a as [[fs0 log0] s items]. simpl.
  destruct (String.eqb (platform P) "linux") eqn:Hp.
  2: { eexists. split; [by apply updateAutoLaunch_elsewhere|]. done. }
  apply String.eqb_eq in Hp.
  assert (Hlinux : forall w', (platform P <> "linux" -> w' = mkWorld fs0 log0)) by done.
  app_unfold. simpl. rewrite Hp. simpl.
  destruct (truthy (s !! "startAtLogin")); simpl.
  - destruct (fs0 !! autostartDir P) as [[c|]|] eqn:Ed.
    1,2: destruct (fs0 !! desktopFile P) as [[c'|]|] eqn:Ef; io_run;
      eexists; (split; [reflexivity|]); (split; [|done]); simpl;
      intros p Hp1 Hp2 _; by rewrite ?lookup_insert_ne.
    io_run.
    destruct (<[autostartDir P:=Dir]> fs0 !! desktopFile P) as [[c'|]|] eqn:Ef; io_run;
      eexists; (split; [reflexivity|]); (split; [|done]); simpl;
      intros p Hp1 Hp2 _; by rewrite ?lookup_insert_ne.
  - destruct (fs0 !! desktopFile P) as [[c'|]|] eqn:Ef; io_run;
      eexists; (split; [reflexivity|]); (split; [|done]); simpl;
      intros p Hp1 Hp2 _; by rewrite ?lookup_delete_ne.
Qed.

(** X14. Switching autostart on.  On Linux with [settings.startAtLogin]
    truthy, [updateAutoLaunch] creates the autostart directory when it is
    missing and writes the desktop entry, replacing an older one; the entry
    carries [--hidden] after the executable exactly when the login item
    arguments do. *)
Theorem autostart_entry_written P w s items :
  platform P = "linux" ->
  truthy (s !! "startAtLogin") = true ->
  (forall c, files w !! autostartDir P <> Some (File c)) ->
  files w !! desktopFile P <> Some Dir ->
  exists w' item,
    updateAutoLaunch P (mkApp w s items) = (Normal tt, mkApp w' s (items ++ [item])) /\
    files w' !! autostartDir P = Some Dir /\
    files w' !! desktopFile P = Some (File (desktopContent P (s !! "startMinimized"))) /\
    output w' = (output w ++ [(LogLevel, "Created autostart entry for Linux")])%list /\
    args item = (if truthy (s !! "startMinimized") then ["--hidden"] else []) /\
    (desktopContent P (s !! "startMinimized") = desktopContent P (Some (JBool true)) <->
     args item = ["--hidden"]).
Proof.
  intros Hp Hon Hdir Hfile. pose proof (desktopFile_ne_autostartDir P) as Hne.
  do 2 eexists. split; [by apply updateAutoLaunch_enable|]. simpl.
  split; [rewrite lookup_insert_ne by done; apply lookup_insert_eq|].
  split; [apply lookup_insert_eq|]. split; [done|]. split; [done|].
  destruct (truthy (s !! "startMinimized")) eqn:Hmin.
  - split; [done|]. intros _.
    unfold desktopContent. by rewrite Hmin.
  - split; [|done]. intros Heq. exfalso.
    apply (desktopContent_flag P (s !! "startMinimized") (Some (JBool true))); [|done].
    by rewrite Hmin.
Qed.

Lemma autostart_entry_written_witness :
  exists w' item,
    updateAutoLaunch steamDeck.process (steamDeck.running true example.emptyWorld)
      = (Normal tt, mkApp w' (steamDeck.settingsWith true) [item]) /\
    files w' !! steamDeck.autostart = Some Dir /\
    files w' !! steamDeck.entry
      = Some (File (desktopContent steamDeck.process (Some (JBool false)))) /\
    args item = [].
Proof.
  destruct (autostart_entry_written steamDeck.process example.emptyWorld
              (steamDeck.settingsWith true) [] eq_refl eq_refl
              ltac:(intros c; vm_compute; discriminate)
              ltac:(vm_compute; discriminate))
    as (w' & item & Hrun & Hdir & Hfile & _ & Hargs & _).
  exists w', item. split; [exact Hrun|]. split; [exact Hdir|]. split; [exact Hfile|].
  exact Hargs.
Defined.

(** X15. Switching autostart off.  On Linux with [settings.startAtLogin]
    falsy, [updateAutoLaunch] removes the desktop entry when there is one
    and touches no other path; run again, it changes nothing in the world. *)
Theorem autostart_entry_removed P w s items :
  platform P = "linux" ->
  truthy (s !! "startAtLogin") = false ->
  files w !! desktopFile P <> Some Dir ->
  exists w' item,
    updateAutoLaunch P (mkApp w s items) = (Normal tt, mkApp w' s (items ++ [item])) /\
    files w' = delete (desktopFile P) (files w) /\
    files w' !! desktopFile P = None /\
    openAtLogin item = s !! "startAtLogin" /\
    updateAutoLaunch P (mkApp w' s (items ++ [item]))
      = (Normal tt, mkApp w' s ((items ++ [item]) ++ [item])).
Proof.
  intros Hp Hoff Hfile.
  do 2 eexists. split; [by apply updateAutoLaunch_disable|]. simpl.
  split; [done|]. split; [apply lookup_delete_eq|]. split; [done|].
  rewrite updateAutoLaunch_disable; [|done|done|simpl; by rewrite lookup_delete_eq].
  simpl. rewrite lookup_delete_eq, app_nil_r.
  by rewrite (delete_id (delete _ _)) by apply lookup_delete_eq.
Qed.

Lemma autostart_entry_removed_witness :
  let w := example.onDisk
             [(steamDeck.autostart, Dir);
              (steamDeck.entry, File (desktopContent steamDeck.process None))] in
  exists w' item,
    updateAutoLaunch steamDeck.process (steamDeck.running false w)
      = (Normal tt, mkApp w' (steamDeck.settingsWith false) [item]) /\
    files w' = {[ steamDeck.autostart := Dir ]} /\
    openAtLogin item = Some (JBool false).
Proof.
  destruct (autostart_entry_removed steamDeck.process
              (example.onDisk
                 [(steamDeck.autostart, Dir);
                  (steamDeck.entry, File (desktopContent steamDeck.process None))])
              (steamDeck.settingsWith false) [] eq_refl eq_refl
              ltac:(vm_compute; discriminate))
    as (w' & item & Hrun & Hfiles & _ & Hopen & _).
  exists w', item. split; [exact Hrun|]. split; [|exact Hopen].
  rewrite Hfiles. vm_compute. reflexivity.
Defined.

(** X16. The check box "Start with System", on Linux.  Ticking it saves the
    settings and writes the autostart entry; unticking it afterwards saves
    again and removes the entry: no entry is left, [settings.startAtLogin]
    is [false], the last login item asked for has [openAtLogin] [false], and
    no other setting has changed. *)
Theorem tray_autostart_round_trip ss J userData P w s items :
  platform P = "linux" ->
  (forall c, files w !! autostartDir P <> Some (File c)) ->
  files w !! desktopFile P <> Some Dir ->
  exists a1 a2,
    clickStartAtLogin ss J userData P true (mkApp w s items) = (Normal tt, a1) /\
    files (world a1) !! desktopFile P
      = Some (File (desktopContent P (s !! "startMinimized"))) /\
    clickStartAtLogin ss J userData P false a1 = (Normal tt, a2) /\
    files (world a2) !! desktopFile P = None /\
    settings a2 !! "startAtLogin" = Some (JBool false) /\
    (forall key, key <> "startAtLogin" -> settings a2 !! key = s !! key) /\
    (exists earlier,
       loginItems a2 =
         (earlier ++ [mkLoginItemSettings (Some (JBool false)) (exePath P)
                        (if truthy (s !! "startMinimized") then ["--hidden"] else [])])%list).
Proof.
  intros Hp Hdir Hfile.
  set (s1 := <["startAtLogin" := JBool true]> s).
  destruct (saveSettings_keeps_autostart ss J userData P (JObject s1) w)
    as (ok1 & w1 & Hsave1 & Hf1 & Hd1).
  assert (Hs1 : truthy (s1 !! "startAtLogin") = true)
    by (unfold s1; by rewrite lookup_insert_eq).
  pose proof (updateAutoLaunch_enable P w1 s1 items Hp Hs1) as Hon.
  rewrite Hf1, Hd1 in Hon. specialize (Hon Hdir Hfile).
  assert (Hmin1 : s1 !! "startMinimized" = s !! "startMinimized")
    by (by apply lookup_insert_ne).
  rewrite Hmin1 in Hon.
  match type of Hon with _ = (_, ?a) => set (a1 := a) in Hon end.
  set (s2 := <["startAtLogin" := JBool false]> s1).
  destruct (saveSettings_keeps_autostart ss J userData P (JObject s2) (world a1))
    as (ok2 & w2 & Hsave2 & Hf2 & Hd2).
  assert (Hentry : files (world a1) !! desktopFile P
                   = Some (File (desktopContent P (s !! "startMinimized"))))
    by apply lookup_insert_eq.
  assert (Hs2 : truthy (s2 !! "startAtLogin") = false)
    by (unfold s2; by rewrite lookup_insert_eq).
  pose proof (updateAutoLaunch_disable P w2 s2 (loginItems a1) Hp Hs2) as Hoff.
  rewrite Hf2, Hentry in Hoff. specialize (Hoff ltac:(discriminate)).
  assert (Hmin2 : s2 !! "startMinimized" = s !! "startMinimized")
    by (unfold s2; by rewrite lookup_insert_ne).
  rewrite Hmin2 in Hoff.
  eexists a1, _. split.
  { rewrite (clickStartAtLogin_run ss J userData P true w s items ok1 w1 Hsave1).
    exact Hon. }
  split; [exact Hentry|]. split.
  { unfold a1 at 1.
    rewrite (clickStartAtLogin_run ss J userData P false _ s1 _ ok2 w2 Hsave2).
    exact Hoff. }
  simpl. split; [apply lookup_delete_eq|]. split; [apply lookup_insert_eq|]. split.
  - intros key Hkey. unfold s2, s1. by rewrite !lookup_insert_ne.
  - eexists. unfold s2. by rewrite lookup_insert_eq.
Qed.

Lemma tray_autostart_round_trip_witness :
  exists a1 a2,
    clickStartAtLogin example.keyring example.json example.userData steamDeck.process
      true (steamDeck.running false example.emptyWorld) = (Normal tt, a1) /\
    is_Some (files (world a1) !! steamDeck.entry) /\
    clickStartAtLogin example.keyring example.json example.userData steamDeck.process
      false a1 = (Normal tt, a2) /\
    files (world a2) !! steamDeck.entry = None.
Proof.
  destruct (tray_autostart_round_trip example.keyring example.json example.userData
              steamDeck.process example.emptyWorld (steamDeck.settingsWith false) []
              eq_refl ltac:(intros c; vm_compute; discriminate)
              ltac:(vm_compute; discriminate))
    as (a1 & a2 & Hon & Hentry & Hoff & Hgone & _).
  exists a1, a2. split; [exact Hon|]. split; [by eexists|]. split; [exact Hoff|].
  exact Hgone.
Defined.

(** X17. The check box "Start Minimized" does not refresh the autostart
    entry.  Its handler saves the settings and stops there: an entry written
    earlier on Linux keeps the [Exec] line of before the click, with or
    without [--hidden], which is not what [settings.startMinimized] says
    any more, and no login item is set. *)
Theorem start_minimized_click_leaves_entry_stale ss J userData P checked w s items :
  platform P = "linux" ->
  truthy (s !! "startAtLogin") = true ->
  (forall c, files w !! autostartDir P <> Some (File c)) ->
  files w !! desktopFile P <> Some Dir ->
  truthy (s !! "startMinimized") <> checked ->
  exists a1 a2,
    updateAutoLaunch P (mkApp w s items) = (Normal tt, a1) /\
    clickStartMinimized ss J userData checked a1 = (Normal tt, a2) /\
    settings a2 !! "startMinimized" = Some (JBool checked) /\
    files (world a2) !! desktopFile P
      = Some (File (desktopContent P (s !! "startMinimized"))) /\
    desktopContent P (s !! "startMinimized")
      <> desktopContent P (settings a2 !! "startMinimized") /\
    loginItems a2 = loginItems a1.
Proof.
  intros Hp Hon Hdir Hfile Hflag.
  pose proof (updateAutoLaunch_enable P w s items Hp Hon Hdir Hfile) as Hrun.
  match type of Hrun with _ = (_, ?a) => set (a1 := a) in Hrun end.
  set (s2 := <["startMinimized" := JBool checked]> s).
  destruct (saveSettings_keeps_autostart ss J userData P (JObject s2) (world a1))
    as (ok & w2 & Hsave & Hf & _).
  exists a1. eexists. split; [exact Hrun|]. split.
  { unfold a1 at 1. by apply (clickStartMinimized_run ss J userData checked _ s _ ok w2). }
  simpl. split; [apply lookup_insert_eq|]. split.
  { rewrite Hf. apply lookup_insert_eq. }
  split; [|done].
  apply desktopContent_flag. unfold s2. by rewrite lookup_insert_eq.
Qed.

Lemma start_minimized_click_leaves_entry_stale_witness :
  exists a1 a2,
    updateAutoLaunch steamDeck.process (steamDeck.running true example.emptyWorld)
      = (Normal tt, a1) /\
    clickStartMinimized example.keyring example.json example.userData true a1
      = (Normal tt, a2) /\
    settings a2 !! "startMinimized" = Some (JBool true) /\
    files (world a2) !! steamDeck.entry
      = Some (File (desktopContent steamDeck.process (Some (JBool false)))).
Proof.
  destruct (start_minimized_click_leaves_entry_stale example.keyring example.json
              example.userData steamDeck.process true example.emptyWorld
              (steamDeck.settingsWith true) [] eq_refl eq_refl
              ltac:(intros c; vm_compute; discriminate)
              ltac:(vm_compute; discriminate) ltac:(vm_compute; discriminate))
    as (a1 & a2 & Hrun & Hclick & Hset & Hentry & _).
  exists a1, a2. split; [exact Hrun|]. split; [exact Hclick|]. split; [exact Hset|].
  exact Hentry.
Defined.

(** X18. With a working keystore a tick in the tray survives a restart: after
    the handler of "Start Minimized" or of "Minimize to Tray" has run,
    [loadSettings] on the files it leaves returns the settings of the
    running application, the new value included. *)
Theorem tray_toggle_survives_restart ss J userData key click checked blob w s items :
  In (key, click)
     [("startMinimized", clickStartMinimized ss J userData);
      ("minimizeToTray", clickMinimizeToTray ss J userData)] ->
  safeStorage.isEncryptionAvailable ss = true ->
  files w !! settingsPath userData <> Some Dir ->
  let saved := JObject (<[key := JBool checked]> s) in
  safeStorage.encryptString ss (JSON.stringify J saved) = Some blob ->
  safeStorage.decryptString ss blob = Some (JSON.stringify J saved) ->
  JSON.parse J (JSON.stringify J saved) = Some saved ->
  exists a1 loaded,
    click checked (mkApp w s items) = (Normal tt, a1) /\
    settings a1 = <[key := JBool checked]> s /\
    loadSettings ss J userData (world a1) = (Normal (JObject loaded), world a1) /\
    loaded !! key = Some (JBool checked) /\
    (forall k v, settings a1 !! k = Some v -> loaded !! k = Some v).
Proof.
  intros Hin Hav Hdir saved Henc Hdec Hparse.
  pose proof (save_encrypted ss J (settingsPath userData) saved blob w Hav Henc Hdir)
    as Hsave.
  set (w1 := mkWorld _ _) in Hsave.
  assert (Hload : loadSettings ss J userData w1
                  = (Normal (spread2 defaultSettings saved), w1)).
  { apply loadSettings_of_load.
    eapply (load_current ss J _ _ (File blob)); [done| |].
    - apply lookup_insert_eq.
    - simpl. by rewrite Hdec. }
  exists (mkApp w1 (<[key := JBool checked]> s) items).
  exists (<[key := JBool checked]> s ∪ ownProperties defaultSettings).
  split.
  { simpl in Hin. destruct Hin as [[= <- <-]|[[= <- <-]|[]]].
    - by eapply clickStartMinimized_run.
    - by eapply clickMinimizeToTray_run. }
  simpl. split; [done|]. split; [exact Hload|]. split.
  - apply lookup_union_Some_l, lookup_insert_eq.
  - intros k v Hk. by apply lookup_union_Some_l.
Qed.

Lemma tray_toggle_survives_restart_witness :
  exists a1 loaded,
    clickMinimizeToTray example.keyring example.json example.userData false
      (steamDeck.running false example.emptyWorld) = (Normal tt, a1) /\
    loadSettings example.keyring example.json example.userData (world a1)
      = (Normal (JObject loaded), world a1) /\
    loaded !! "minimizeToTray" = Some (JBool false).
Proof.
  destruct (tray_toggle_survives_restart example.keyring example.json example.userData
              "minimizeToTray"
              (clickMinimizeToTray example.keyring example.json example.userData)
              false
              (default "" (example.encrypt
                 (example.stringify
                    (JObject (<["minimizeToTray" := JBool false]>
                                (steamDeck.settingsWith false))))))
              example.emptyWorld (steamDeck.settingsWith false) []
              (or_intror (or_introl eq_refl)) eq_refl
              ltac:(vm_compute; discriminate) eq_refl eq_refl eq_refl)
    as (a1 & loaded & Hclick & _ & Hload & Hkey & _).
  exists a1, loaded. split; [exact Hclick|]. split; [exact Hload | exact Hkey].
Defined.

(** ** The icon file *)

Lemma byteValue_byteOf v : byteValue (byteOf v) = (v mod 256)%Z.
Proof.
  unfold byteValue, byteOf.
  assert (Hr : (0 <= v mod 256 < 256)%Z) by (apply Z.mod_pos_bound; lia).
  pose proof (Byte.to_of_N_option_map (Z.to_N (v mod 256))) as H.
  destruct (N.leb_spec (Z.to_N (v mod 256)) 255) as [_|Hgt]; [|lia].
  destruct (Byte.of_N (Z.to_N (v mod 256))) as [b|]; [|done].
  simpl in *. injection H as ->. lia.
Qed.


Lemma uint32_bytes v :
  (0 <= v < 4294967296)%Z ->
  (v mod 256 + (v / 256) mod 256 * 256 + (v / 65536) mod 256 * 65536
   + (v / 16777216) mod 256 * 16777216 = v)%Z.
Proof. intros Hv. Z.div_mod_to_equations. lia. Qed.

Lemma uint16_bytes v :
  (0 <= v < 65536)%Z -> (v mod 256 + (v / 256) mod 256 * 256 = v)%Z.
Proof. intros Hv. Z.div_mod_to_equations. lia. Qed.

Example createIco_empty :
  createIco [] = Some [Byte.x00; Byte.x00; Byte.x01; Byte.x00; Byte.x00; Byte.x00].
Proof. vm_compute. reflexivity. Qed.

Lemma createIco_body_Some st png st' :
  createIco_body st png = Some st' ->
  exists entry,
    st' = mkIcoLoop (dataOffset st + Z.of_nat (length png))
                    (dirEntries st ++ [entry])%list
                    (imageData st ++ [png])%list /\
    describes entry png (dataOffset st) /\
    (Z.of_nat (length png) < 4294967296)%Z /\
    (0 <= dataOffset st < 4294967296)%Z.
Proof.
  unfold createIco_body.
  destruct (Buffer.readUInt32BE 16 png) as [width|] eqn:Hwidth; [|done].
  destruct (Buffer.readUInt32BE 20 png) as [height|] eqn:Hheight; [|done].
  cbn [mbind option_bind].
  remember (Z.of_nat (length png)) as len eqn:Hlen.
  remember (dataOffset st) as off eqn:Hoff.
  remember (if (256 <=? width)%Z then 0%Z else width) as w8 eqn:Hw8.
  remember (if (256 <=? height)%Z then 0%Z else height) as h8 eqn:Hh8.
  unfold Buffer.writeUInt8, Buffer.writeUInt16LE, Buffer.writeUInt32LE, Buffer.fill,
    Buffer.alloc.
  simpl.
  destruct ((0 <=? w8)%Z && (w8 <? 256)%Z) eqn:E1; [simpl|done].
  destruct ((0 <=? h8)%Z && (h8 <? 256)%Z) eqn:E2; [simpl|done].
  destruct ((0 <=? len)%Z && (len <? 4294967296)%Z) eqn:E3; [simpl|done].
  destruct ((0 <=? off)%Z && (off <? 4294967296)%Z) eqn:E4; [simpl|done].
  intros [= <-].
  apply andb_true_iff in E3 as [?%Z.leb_le ?%Z.ltb_lt].
  apply andb_true_iff in E4 as [?%Z.leb_le ?%Z.ltb_lt].
  subst len off. eexists. split; [reflexivity|].
  split; [|lia].
  split; [reflexivity|]. split.
  { exists width, height. split; [done|]. split; [done|]. subst w8 h8. reflexivity. }
  unfold Buffer.readUInt32LE, Buffer.readUInt16LE. simpl drop. cbv beta iota.
  rewrite !byteValue_byteOf.
  split; [reflexivity|]. split; [reflexivity|].
  split; f_equal; by apply uint32_bytes.
Qed.





(** The loop of [createIco]: the images are collected in order, and every
    image gets an entry that gives its size and the offset reached when its
    turn came. *)
Lemma createIco_loop pngs : forall st st',
  forOf createIco_body pngs st = Some st' ->
  dataOffset st' = (dataOffset st + Z.of_nat (sum_list_with length pngs))%Z /\
  imageData st' = (imageData st ++ pngs)%list /\
  exists entries,
    dirEntries st' = (dirEntries st ++ entries)%list /\
    length entries = length pngs /\
    forall i png,
      pngs !! i = Some png ->
      exists entry,
        entries !! i = Some entry /\
        describes entry png
          (dataOffset st + Z.of_nat (sum_list_with length (take i pngs)))%Z.
Proof.
  induction pngs as [|png pngs IH]; intros st st'; simpl.
  - intros [= <-]. rewrite Z.add_0_r, app_nil_r. split; [done|]. split; [done|].
    exists []. rewrite app_nil_r. split; [done|]. split; [done|]. intros i p. done.
  - destruct (createIco_body st png) as [st1|] eqn:Hbody; [|done].
    cbn [mbind option_bind]. intros Hrest.
    apply createIco_body_Some in Hbody as (entry & -> & Hentry & _).
    destruct (IH _ _ Hrest) as (Hoff & Hdata & entries & Hdir & Hlen & Hall).
    simpl in *. split; [rewrite Hoff; lia|].
    split; [rewrite Hdata; by rewrite <- app_assoc|].
    exists (entry :: entries). split; [rewrite Hdir; by rewrite <- app_assoc|].
    split; [simpl; by rewrite Hlen|].
    intros [|i] p Hp; simpl in *.
    + injection Hp as <-. exists entry. split; [done|]. by rewrite Z.add_0_r.
    + destruct (Hall i p Hp) as (e & He & Hdesc). exists e. split; [done|].
      replace (dataOffset st + Z.of_nat (length png + sum_list_with length (take i pngs)))%Z
        with (dataOffset st + Z.of_nat (length png)
              + Z.of_nat (sum_list_with length (take i pngs)))%Z by lia.
      exact Hdesc.
Qed.



Lemma length_concat_sum {A} (l : list (list A)) :
  length (List.concat l) = sum_list_with length l.
Proof. induction l as [|x l IH]; simpl; [done|]. by rewrite List.length_app, IH. Qed.

Lemma concat_slice {A} (l : list (list A)) i x :
  l !! i = Some x ->
  take (length x) (drop (sum_list_with length (take i l)) (List.concat l)) = x.
Proof.
  intros Hi. rewrite <- (take_drop_middle l i x Hi) at 2.
  rewrite concat_app. simpl.
  rewrite drop_app_length' by (by rewrite length_concat_sum).
  by rewrite take_app_length.
Qed.

(** What [createIco] returns when it returns: the header, the entries, the
    images. *)
Lemma createIco_Some pngs ico :
  createIco pngs = Some ico ->
  let n := Z.of_nat (length pngs) in
  (n < 65536)%Z /\
  exists entries,
    ico = ([Byte.x00; Byte.x00; Byte.x01; Byte.x00; byteOf n; byteOf (n / 256)]
           ++ List.concat entries ++ List.concat pngs)%list /\
    length entries = length pngs /\
    forall i png,
      pngs !! i = Some png ->
      exists entry,
        entries !! i = Some entry /\
        describes entry png
          (6 + n * 16 + Z.of_nat (sum_list_with length (take i pngs)))%Z.
Proof.
  intros Hico n. unfold createIco in Hico. fold n in Hico.
  unfold Buffer.writeUInt16LE, Buffer.fill, Buffer.alloc in Hico. simpl in Hico.
  destruct ((0 <=? n)%Z && (n <? 65536)%Z) eqn:Hn; [|done]. simpl in Hico.
  apply andb_true_iff in Hn as [_ Hn%Z.ltb_lt]. split; [done|].
  destruct (forOf createIco_body pngs _) as [st|] eqn:Hloop; [|done].
  simpl in Hico. injection Hico as <-.
  destruct (createIco_loop _ _ _ Hloop) as (_ & Hdata & entries & Hdir & Hlen & Hall).
  simpl in *. exists entries. rewrite Hdir, Hdata.
  unfold Buffer.concat. simpl. rewrite concat_app. done.
Qed.

Lemma sum_lengths_const {A} k (l : list (list A)) :
  (forall i x, l !! i = Some x -> length x = k) ->
  sum_list_with length l = k * length l.
Proof.
  induction l as [|x l IH]; intros Hall; simpl; [lia|].
  rewrite (Hall 0 x eq_refl), IH; [lia|].
  intros i y Hy. exact (Hall (S i) y Hy).
Qed.

Lemma createIco_entries_16 (pngs entries : list (list Byte.byte)) (base : Z) :
  length entries = length pngs ->
  (forall i png,
     pngs !! i = Some png ->
     exists entry,
       entries !! i = Some entry /\
       describes entry png (base + Z.of_nat (sum_list_with length (take i pngs)))%Z) ->
  forall i entry, entries !! i = Some entry -> length entry = 16.
Proof.
  intros Hlen Hall i entry Hi.
  destruct (lookup_lt_is_Some_2 pngs i) as [png Hpng].
  { rewrite <- Hlen. by eapply lookup_lt_Some. }
  destruct (Hall i png Hpng) as (entry' & Hi' & Hdesc & _).
  congruence.
Qed.

(** X19. The size and the header of the icon file.  When [createIco]
    returns, the file is six bytes of header, sixteen bytes of directory for
    each image and then the images: its first four bytes are 0, 0, 1, 0 (an
    icon), the next two hold the number of images, low byte first. *)
Theorem createIco_size_and_header pngs ico :
  createIco pngs = Some ico ->
  length ico = 6 + 16 * length pngs + sum_list_with length pngs /\
  take 4 ico = [Byte.x00; Byte.x00; Byte.x01; Byte.x00] /\
  Buffer.readUInt16LE 4 ico = Some (Z.of_nat (length pngs)).
Proof.
  intros Hico.
  destruct (createIco_Some _ _ Hico) as (Hn & entries & -> & Hlen & Hall).
  pose proof (createIco_entries_16 _ _ _ Hlen Hall) as H16.
  split; [|split].
  - rewrite !List.length_app, !length_concat_sum, (sum_lengths_const 16 entries H16).
    simpl. lia.
  - reflexivity.
  - unfold Buffer.readUInt16LE. simpl drop. cbv beta iota.
    rewrite !byteValue_byteOf. f_equal. apply uint16_bytes. lia.
Qed.

Lemma createIco_size_and_header_witness :
  let ico := default [] (createIco [icons.png16; icons.png256]) in
  createIco [icons.png16; icons.png256] = Some ico /\
  length ico = 89 /\
  Buffer.readUInt16LE 4 ico = Some 2%Z.
Proof.
  intros ico.
  assert (Hico : createIco [icons.png16; icons.png256] = Some ico)
    by (vm_compute; reflexivity).
  destruct (createIco_size_and_header [icons.png16; icons.png256] ico Hico)
    as (Hlen & _ & Hcount).
  split; [exact Hico|]. split; [exact Hlen | exact Hcount].
Defined.

(** X20. Every directory entry locates its image.  When [createIco]
    returns, the sixteen bytes at [6 + 16 * i] describe the [i]-th buffer
    given: width and height bytes taken from its bytes 16-23 (0 standing for
    256 and more), one plane, 32 bits per pixel, its length, and an offset at
    which the file holds that very buffer, byte for byte. *)
Theorem createIco_entries_locate_images pngs ico i png :
  createIco pngs = Some ico ->
  pngs !! i = Some png ->
  exists offset,
    describes (take 16 (drop (6 + 16 * i) ico)) png offset /\
    take (length png) (drop (Z.to_nat offset) ico) = png.
Proof.
  intros Hico Hpng.
  destruct (createIco_Some _ _ Hico) as (Hn & entries & -> & Hlen & Hall).
  pose proof (createIco_entries_16 _ _ _ Hlen Hall) as H16.
  destruct (Hall i png Hpng) as (entry & Hentry & Hdesc).
  eexists. split.
  - rewrite (drop_app_add' _ _ 6 (16 * i)) by reflexivity.
    assert (Hi : 16 * i = sum_list_with length (take i entries)).
    { rewrite (sum_lengths_const 16).
      - rewrite length_take_le; [done|]. apply lookup_lt_Some in Hentry. lia.
      - intros j x Hx. apply lookup_take_Some in Hx as [Hx _]. by eapply H16. }
    pose proof (concat_slice entries i entry Hentry) as Hslice.
    rewrite (H16 _ _ Hentry), <- Hi in Hslice.
    assert (16 <= length (drop (16 * i) (List.concat entries))) as Hroom.
    { apply (f_equal length) in Hslice. rewrite length_take, (H16 _ _ Hentry) in Hslice.
      lia. }
    rewrite drop_app_le by (rewrite length_drop in Hroom; lia).
    rewrite take_app_le by done. rewrite Hslice. exact Hdesc.
  - replace (Z.to_nat (6 + Z.of_nat (length pngs) * 16
                       + Z.of_nat (sum_list_with length (take i pngs))))
      with (6 + (length (List.concat entries) + sum_list_with length (take i pngs))).
    2: { rewrite length_concat_sum, (sum_lengths_const 16 entries H16). lia. }
    rewrite (drop_app_add' _ _ 6) by reflexivity.
    rewrite drop_app_add. by apply concat_slice.
Qed.

Lemma createIco_entries_locate_images_witness :
  let ico := default [] (createIco [icons.png16; icons.png256]) in
  createIco [icons.png16; icons.png256] = Some ico /\
  exists offset,
    describes (take 16 (drop 22 ico)) icons.png256 offset /\
    take 25 (drop (Z.to_nat offset) ico) = icons.png256.
Proof.
  intros ico.
  assert (Hico : createIco [icons.png16; icons.png256] = Some ico)
    by (vm_compute; reflexivity).
  split; [exact Hico|].
  exact (createIco_entries_locate_images [icons.png16; icons.png256] ico 1
           icons.png256 Hico eq_refl).
Defined.

Example createIco_second_entry :
  take 16 (drop 22 (default [] (createIco [icons.png16; icons.png256])))
  = [Byte.x00; Byte.x00; Byte.x00; Byte.x00; Byte.x01; Byte.x00; Byte.x20; Byte.x00;
     Byte.x19; Byte.x00; Byte.x00; Byte.x00; Byte.x40; Byte.x00; Byte.x00; Byte.x00].
Proof. vm_compute. reflexivity. Qed.


Example createIco_short_buffer : createIco [replicate 23 Byte.x00] = None.
Proof. vm_compute. reflexivity. Qed.
